(** * zipline.messaging: the messaging core, embedded and verified

    A shallow embedding of [src/zipline/messaging.py]: the chronological
    Feed ([ParallelBuffer]), the per-tick Merge ([MergedParallelBuffer]),
    the [PassthroughTransform] and the [ComponentHost] heartbeat loop.

    Python dictionaries are [gmap]s; iterating a dictionary walks
    [map_to_list]: every entry once, in an order fixed by the key set.  A
    Python 2 [dict] also visits every entry once, but in an order that
    depends on the hashes and on the history of insertions, so on a tie the
    embedding may pick another entry than an interpreter does; the theorems
    below hold for the order of [map_to_list] and state nothing that depends
    on which order it is.  Mutable objects live in an explicit state that
    survives a raised exception, so a partially executed method leaves its
    writes behind, as in Python. *)

From stdpp Require Import gmap strings list fin_maps sorting.
From Stdlib Require Import ZArith Lia Ascii.

Local Open Scope Z_scope.

(** ** Exceptions and the state-and-exception monad *)

(** The Python exceptions the modelled methods can raise. *)
Inductive exn :=
  | KeyError (key : string)
  | IndexError
  | UnboundLocalError (var : string)
  | DecodeError.

(** Outcome of a computation: a value, a raised exception, or a loop that
    was cut off before its condition became false. *)
Inductive res (A : Type) :=
  | Val (a : A)
  | Exc (e : exn)
  | OutOfFuel.
Arguments Val {A} a.
Arguments Exc {A} e.
Arguments OutOfFuel {A}.

(** A method on an object of type [S]: it reads and writes the object and
    ends in an outcome.  The written state is kept whatever the outcome. *)
Definition M (S A : Type) : Type := S → res A * S.

Definition ret {S A} (a : A) : M S A := λ s, (Val a, s).
Definition raise {S A} (e : exn) : M S A := λ s, (Exc e, s).
Definition bind {S A B} (c : M S A) (k : A → M S B) : M S B :=
  λ s, match c s with
       | (Val a, s') => k a s'
       | (Exc e, s') => (Exc e, s')
       | (OutOfFuel, s') => (OutOfFuel, s')
       end.
Definition get {S} : M S S := λ s, (Val s, s).
Definition modify {S} (f : S → S) : M S unit := λ s, (Val tt, f s).

Declare Scope py_scope.
Delimit Scope py_scope with py.
Notation "x <- c ;; k" := (bind c (λ x, k))
  (at level 100, c at next level, right associativity) : py_scope.
Notation "c ;; k" := (bind c (λ _, k))
  (at level 100, right associativity) : py_scope.
Local Open Scope py_scope.

(** ** Events *)

(** An event of a data source, as the Feed uses it: [event.source_id] keys
    the queue and [event.dt] orders the merge.  Timestamps are totally
    ordered; they are integers here (microseconds). *)
Record event := Event {
  source_id : string;
  dt : Z;
  payload : string }.

(** ** The parts of [zipline.protocol] and [zipline.component] the module uses *)

(** What a buffer puts on its sockets, oldest first.  [Send r] is
    [self.feed_socket.send(self.frame(r), self.zmq.NOBLOCK)]; [SignalDone] is
    [self.signal_done()]. *)
Inductive action (R : Type) :=
  | Send (r : R)
  | SignalDone.
Arguments Send {R} r.
Arguments SignalDone {R}.

(** ** ParallelBuffer *)

(** The fields set by [ParallelBuffer.__init__], with [done] from
    [Component] and the log of socket actions. *)
Record ParallelBuffer (E R : Type) := mkPB {
  sent_count : nat;
  received_count : nat;
  draining : bool;
  data_buffer : gmap string (list E);
  ds_finished_counter : nat;
  done : bool;
  out : list (action R) }.
Arguments mkPB {E R}.
Arguments sent_count {E R}.
Arguments received_count {E R}.
Arguments draining {E R}.
Arguments data_buffer {E R}.
Arguments ds_finished_counter {E R}.
Arguments done {E R}.
Arguments out {E R}.

Section Setters.
Context {E R : Type}.
Implicit Type self : ParallelBuffer E R.

Definition set_sent_count (n : nat) self :=
  mkPB n (received_count self) (draining self) (data_buffer self)
       (ds_finished_counter self) (done self) (out self).
Definition set_received_count (n : nat) self :=
  mkPB (sent_count self) n (draining self) (data_buffer self)
       (ds_finished_counter self) (done self) (out self).
Definition set_draining (b : bool) self :=
  mkPB (sent_count self) (received_count self) b (data_buffer self)
       (ds_finished_counter self) (done self) (out self).
Definition set_data_buffer (m : gmap string (list E)) self :=
  mkPB (sent_count self) (received_count self) (draining self) m
       (ds_finished_counter self) (done self) (out self).
Definition set_ds_finished_counter (n : nat) self :=
  mkPB (sent_count self) (received_count self) (draining self)
       (data_buffer self) n (done self) (out self).
Definition set_done (b : bool) self :=
  mkPB (sent_count self) (received_count self) (draining self)
       (data_buffer self) (ds_finished_counter self) b (out self).
Definition emit (a : action R) self :=
  mkPB (sent_count self) (received_count self) (draining self)
       (data_buffer self) (ds_finished_counter self) (done self)
       (out self ++ [a]).
End Setters.

(** [ParallelBuffer.__init__]. *)
Definition ParallelBuffer_init {E R} : ParallelBuffer E R :=
  mkPB 0 0 false ∅ 0 false [].

(** [add_source]: [self.data_buffer[source_id] = []]. *)
Definition add_source {E R} (source_id : string) (self : ParallelBuffer E R) :=
  set_data_buffer (<[source_id := []]> (data_buffer self)) self.

(** [is_full]: no queue of the dictionary is empty. *)
Definition is_full {E R} (self : ParallelBuffer E R) : bool :=
  forallb (λ kv, negb (Nat.eqb (length kv.2) 0)) (map_to_list (data_buffer self)).

(** [pending_messages]: the running total of the queue lengths. *)
Definition pending_messages {E R} (self : ParallelBuffer E R) : nat :=
  foldl (λ total kv, (total + length kv.2)%nat) 0%nat (map_to_list (data_buffer self)).

(** The methods a subclass overrides: [ParallelBuffer] calls them through
    [self]. *)
Class BufferMethods (E R : Type) := {
  next : M (ParallelBuffer E R) (option R);
  append : E → M (ParallelBuffer E R) unit;
  unframe : string → M (ParallelBuffer E R) E;
  frame : R → string }.

Section Buffer.
Context {E R : Type} `{BufferMethods E R}.
(** [str(CONTROL_PROTOCOL.DONE)], the sentinel of the data channels. *)
Variable DONE : string.

Abbreviation PB := (ParallelBuffer E R).

(** Modelled from the spec: [signal_done] of [Component], whose module
    [zipline.component] is not part of [messaging.py].  The component
    reports DONE and ceases producing output: the call is logged and [done]
    is set. *)
Definition signal_done : M PB unit :=
  modify (λ self, set_done true (emit SignalDone self)).

(** [send_next]. *)
Definition send_next : M PB unit :=
  self <- get;;
  if negb (is_full self || draining self) then ret tt
  else
    event <- next;;
    match event with
    | Some ev =>
        modify (emit (Send ev));;
        modify (λ self, set_sent_count (S (sent_count self)) self)
    | None => ret tt
    end.

(** The [while] loop of [drain]; [fuel] bounds the number of tests of its
    condition. *)
Fixpoint drain_loop (fuel : nat) : M PB unit :=
  match fuel with
  | O => λ self, (OutOfFuel, self)
  | S fuel' =>
      self <- get;;
      if Nat.ltb 0 (pending_messages self)
      then (send_next;; drain_loop fuel')
      else ret tt
  end.

(** [drain]. *)
Definition drain (fuel : nat) : M PB unit :=
  modify (set_draining true);;
  drain_loop fuel.

(** [do_work], on the outcome of the poll: [None] when the poll timed
    out, [Some message] when [pull_socket] had a message to [recv]. *)
Definition do_work (fuel : nat) (polled : option string) : M PB unit :=
  match polled with
  | None => ret tt
  | Some message =>
      if bool_decide (message = DONE) then
        modify (λ self, set_ds_finished_counter (S (ds_finished_counter self)) self);;
        self <- get;;
        if Nat.eqb (size (data_buffer self)) (ds_finished_counter self)
        then (drain fuel;; signal_done)
        else ret tt
      else
        event <- unframe message;;
        append event;;
        send_next
  end.

(** Modelled from the spec: the work loop of [Component], which runs
    [do_work] once per poll until the component has signalled DONE.  A raised
    exception ends the loop. *)
Fixpoint run (fuel : nat) (polls : list (option string)) : M PB unit :=
  match polls with
  | [] => ret tt
  | polled :: polls' =>
      self <- get;;
      if done self then ret tt
      else (do_work fuel polled;; run fuel polls')
  end.
End Buffer.

(** ** The Feed: [ParallelBuffer] with its own [next], [append] and codec *)

Section Feed.
(** [zp.DATASOURCE_UNFRAME] and [zp.FEED_FRAME] of [zipline.protocol];
    [DATASOURCE_UNFRAME msg = None] when the codec rejects [msg]. *)
Variable DATASOURCE_UNFRAME : string → option event.
Variable FEED_FRAME : event → string.

Abbreviation Feed := (ParallelBuffer event event).

(** One turn of the [for events in self.data_buffer.values()] loop of
    [next].  [earliest] refers to a queue of the dictionary: it is kept as
    the key of that queue with its head and its tail. *)
Definition next_step (earliest : option (string * event * list event))
    (kv : string * list event) : option (string * event * list event) :=
  match kv.2 with
  | [] => earliest
  | c :: rest =>
      match earliest with
      | None => Some (kv.1, c, rest)
      | Some (_, e, _) =>
          if bool_decide (dt c ≤ dt e) then Some (kv.1, c, rest) else earliest
      end
  end.

(** [ParallelBuffer.next]: the head of the queue with the earliest head,
    popped from that queue. *)
Definition ParallelBuffer_next : M Feed (option event) :=
  self <- get;;
  if negb (is_full self || draining self) then ret None
  else
    match foldl next_step None (map_to_list (data_buffer self)) with
    | Some (k, e, rest) =>
        modify (set_data_buffer (<[k := rest]> (data_buffer self)));;
        ret (Some e)
    | None => ret None
    end.

(** [ParallelBuffer.append]. *)
Definition ParallelBuffer_append (ev : event) : M Feed unit :=
  self <- get;;
  match data_buffer self !! source_id ev with
  | None => raise (KeyError (source_id ev))
  | Some events =>
      modify (set_data_buffer (<[source_id ev := events ++ [ev]]> (data_buffer self)));;
      modify (λ self, set_received_count (S (received_count self)) self)
  end.

(** [ParallelBuffer.unframe]. *)
Definition ParallelBuffer_unframe (msg : string) : M Feed event :=
  match DATASOURCE_UNFRAME msg with
  | Some ev => ret ev
  | None => raise DecodeError
  end.

#[local] Instance Feed_methods : BufferMethods event event := {
  next := ParallelBuffer_next;
  append := ParallelBuffer_append;
  unframe := ParallelBuffer_unframe;
  frame := FEED_FRAME }.

(** The Feed of a host whose data sources are [sources]. *)
Definition Feed_init (sources : list string) : Feed :=
  foldl (λ self s, add_source s self) ParallelBuffer_init sources.

(** The events the Feed has published, oldest first. *)
Definition sent (self : Feed) : list event :=
  omap (λ a, match a with Send e => Some e | SignalDone => None end) (out self).

(** The frames on the feed socket, oldest first. *)
Definition feed_socket (self : Feed) : list string :=
  FEED_FRAME <$> sent self.

(** The inherited methods, as the Feed runs them. *)
Definition Feed_send_next : M Feed unit := send_next.
Definition Feed_drain_loop (fuel : nat) : M Feed unit := drain_loop fuel.
Definition Feed_drain (fuel : nat) : M Feed unit := drain fuel.
Definition Feed_do_work (DONE : string) (fuel : nat) (polled : option string)
  : M Feed unit := do_work DONE fuel polled.
Definition Feed_run (DONE : string) (fuel : nat) (polls : list (option string))
  : M Feed unit := run DONE fuel polls.

End Feed.

(** ** The Merge: [MergedParallelBuffer] *)

Section Merge.
(** A queue of the Merge holds transform results of type [T]; what it
    publishes is a merged record of type [Rm].  From [zipline.protocol]:
    [first_key ev] is [ev.__dict__.keys()[0]], [get_PASSTHROUGH ev] is the
    attribute [ev.PASSTHROUGH], [merge result cur] is the record after
    [result.merge(cur)], and the codec of the two sockets. *)
Context {T Rm : Type}.
Variable first_key : T → string.
Variable get_PASSTHROUGH : T → Rm.
Variable merge : Rm → T → Rm.
Variable TRANSFORM_UNFRAME : string → option T.
Variable MERGE_FRAME : Rm → string.

Abbreviation Merge := (ParallelBuffer T Rm).

(** One turn of the [for source, events in self.data_buffer.iteritems()]
    loop of [next]: the record merged so far and the dictionary. *)
Definition merge_step (acc : Rm * gmap string (list T)) (kv : string * list T)
  : Rm * gmap string (list T) :=
  if bool_decide (kv.1 = "PASSTHROUGH") then acc
  else
    match kv.2 with
    | cur :: rest => (merge acc.1 cur, <[kv.1 := rest]> acc.2)
    | [] => acc
    end.

(** [MergedParallelBuffer.next]. *)
Definition MergedParallelBuffer_next : M Merge (option Rm) :=
  self <- get;;
  if negb (is_full self || draining self) then ret None
  else
    match data_buffer self !! "PASSTHROUGH" with
    | None => raise (KeyError "PASSTHROUGH")
    | Some [] => raise IndexError
    | Some (head :: rest) =>
        modify (set_data_buffer (<["PASSTHROUGH" := rest]> (data_buffer self)));;
        self <- get;;
        let merged := foldl merge_step (get_PASSTHROUGH head, data_buffer self)
                            (map_to_list (data_buffer self)) in
        modify (set_data_buffer merged.2);;
        ret (Some merged.1)
    end.

(** [MergedParallelBuffer.append]. *)
Definition MergedParallelBuffer_append (ev : T) : M Merge unit :=
  self <- get;;
  match data_buffer self !! first_key ev with
  | None => raise (KeyError (first_key ev))
  | Some events =>
      modify (set_data_buffer (<[first_key ev := events ++ [ev]]> (data_buffer self)));;
      modify (λ self, set_received_count (S (received_count self)) self)
  end.

(** [MergedParallelBuffer.unframe]. *)
Definition MergedParallelBuffer_unframe (msg : string) : M Merge T :=
  match TRANSFORM_UNFRAME msg with
  | Some ev => ret ev
  | None => raise DecodeError
  end.

#[local] Instance Merge_methods : BufferMethods T Rm := {
  next := MergedParallelBuffer_next;
  append := MergedParallelBuffer_append;
  unframe := MergedParallelBuffer_unframe;
  frame := MERGE_FRAME }.

(** The inherited methods, as the Merge runs them. *)
Definition Merge_send_next : M Merge unit := send_next.
Definition Merge_drain (fuel : nat) : M Merge unit := drain fuel.
Definition Merge_do_work (DONE : string) (fuel : nat) (polled : option string)
  : M Merge unit := do_work DONE fuel polled.
Definition Merge_run (DONE : string) (fuel : nat) (polls : list (option string))
  : M Merge unit := run DONE fuel polls.

End Merge.

(** ** PassthroughTransform *)

(** What [do_work] of a transform touches: [done] of [Component] and the
    frames sent on [result_socket], oldest first. *)
Record Transform := mkTransform {
  transform_done : bool;
  result_socket : list string }.

Section Passthrough.
Variable DONE : string.
(** [zp.TRANSFORM_FRAME name value]. *)
Variable TRANSFORM_FRAME : string → string → string.

(** Modelled from the spec: [signal_done] of [Component], as above. *)
Definition transform_signal_done : M Transform unit :=
  modify (λ self, mkTransform true (result_socket self)).

(** [self.result_socket.send(frame, self.zmq.NOBLOCK)]. *)
Definition result_socket_send (frm : string) : M Transform unit :=
  modify (λ self, mkTransform (transform_done self) (result_socket self ++ [frm])).

(** [PassthroughTransform.do_work].  The local [message] is bound only by
    [recv] inside the [if]; the [send] after the [if] reads it whether or
    not the poll delivered a message. *)
Definition PassthroughTransform_do_work (polled : option string) : M Transform unit :=
  bound <- match polled with
           | Some message =>
               if bool_decide (message = DONE)
               then (transform_signal_done;; ret (Some message, true))
               else ret (Some message, false)
           | None => ret (None, false)
           end;;
  let '(message, returned) := bound in
  if (returned : bool) then ret tt
  else
    match message with
    | Some message => result_socket_send (TRANSFORM_FRAME "PASSTHROUGH" message)
    | None => raise (UnboundLocalError "message")
    end.

End Passthrough.

(** ** ComponentHost *)

(** [msg.split(sep)] of Python, for a separator of one character. *)
Fixpoint str_split (sep : Ascii.ascii) (msg : string) : list string :=
  match msg with
  | EmptyString => [EmptyString]
  | String c msg' =>
      if bool_decide (c = sep) then EmptyString :: str_split sep msg'
      else
        match str_split sep msg' with
        | part :: parts => String c part :: parts
        | [] => [String c EmptyString]
        end
  end.

(** What [register_components] asks of a component: its [get_id] and the
    outcome of the two [isinstance] tests. *)
Inductive component_kind := IsDataSource | IsBaseTransform | IsOther.

Record component := mkComponent {
  get_id : string;
  kind : component_kind }.

(** The traffic on the host's [sync_socket], oldest first. *)
Inductive sync_event :=
  | Recv (msg : string)
  | Reply (msg : string).

(** The fields of [ComponentHost] that the registry and the loop use.
    Times are in microseconds. *)
Record ComponentHost (T Rm : Type) := mkHost {
  components : gmap string component;
  sync_register : gmap string Z;
  timeout : Z;
  feed : ParallelBuffer event event;
  merge : ParallelBuffer T Rm;
  sync_socket : list sync_event }.
Arguments mkHost {T Rm}.
Arguments components {T Rm}.
Arguments sync_register {T Rm}.
Arguments timeout {T Rm}.
Arguments feed {T Rm}.
Arguments merge {T Rm}.
Arguments sync_socket {T Rm}.

(** What one iteration of [loop] reads from outside: the clock in
    [is_timed_out], the poll, and the clock when a heartbeat is recorded. *)
Record tick := mkTick {
  tick_cur_time : Z;
  tick_polled : option string;
  tick_utcnow : Z }.

Section Host.
Context {T Rm : Type}.
(** [str(CONTROL_PROTOCOL.DONE)]. *)
Variable DONE : string.

Abbreviation Host := (ComponentHost T Rm).

Definition set_components (m : gmap string component) (self : Host) : Host :=
  mkHost m (sync_register self) (timeout self) (feed self) (merge self)
         (sync_socket self).
Definition set_sync_register (m : gmap string Z) (self : Host) : Host :=
  mkHost (components self) m (timeout self) (feed self) (merge self)
         (sync_socket self).
Definition set_feed (b : ParallelBuffer event event) (self : Host) : Host :=
  mkHost (components self) (sync_register self) (timeout self) b (merge self)
         (sync_socket self).
Definition set_merge (b : ParallelBuffer T Rm) (self : Host) : Host :=
  mkHost (components self) (sync_register self) (timeout self) (feed self) b
         (sync_socket self).
Definition sync_log (ev : sync_event) (self : Host) : Host :=
  mkHost (components self) (sync_register self) (timeout self) (feed self)
         (merge self) (sync_socket self ++ [ev]).

(** One turn of the loop of [register_components]; [utcnow] is what
    [datetime.datetime.utcnow()] returns in that turn. *)
Definition register_component (self : Host) (entry : component * Z) : Host :=
  let '(c, utcnow) := entry in
  let self := set_components (<[get_id c := c]> (components self)) self in
  let self := set_sync_register (<[get_id c := utcnow]> (sync_register self)) self in
  let self := match kind c with
              | IsDataSource => set_feed (add_source (get_id c) (feed self)) self
              | _ => self
              end in
  match kind c with
  | IsBaseTransform => set_merge (add_source (get_id c) (merge self)) self
  | _ => self
  end.

(** [register_components]. *)
Definition register_components (entries : list (component * Z)) (self : Host) : Host :=
  foldl register_component self entries.

(** [ComponentHost.__init__]: the Feed, the Merge and the Passthrough are
    registered at once, at the clock readings [t_feed], [t_merge] and
    [t_passthrough]; the timeout is five seconds. *)
Definition ComponentHost_init (t_feed t_merge t_passthrough : Z) : Host :=
  register_components
    [(mkComponent "FEED" IsOther, t_feed);
     (mkComponent "MERGE" IsOther, t_merge);
     (mkComponent "PASSTHROUGH" IsBaseTransform, t_passthrough)]
    (mkHost ∅ ∅ 5000000 ParallelBuffer_init ParallelBuffer_init []).

(** [unregister_component]: two [del], each raising [KeyError] on a key
    that is not there. *)
Definition unregister_component (component_id : string) : M Host unit :=
  self <- get;;
  match components self !! component_id with
  | None => raise (KeyError component_id)
  | Some _ =>
      modify (set_components (delete component_id (components self)));;
      self <- get;;
      match sync_register self !! component_id with
      | None => raise (KeyError component_id)
      | Some _ => modify (set_sync_register (delete component_id (sync_register self)))
      end
  end.

(** [is_timed_out]; [cur_time] is what [utcnow()] returns. *)
Definition is_timed_out (cur_time : Z) (self : Host) : bool :=
  if Nat.eqb (size (components self)) 0 then true
  else existsb (λ kv, bool_decide (cur_time - kv.2 > timeout self))
               (map_to_list (sync_register self)).

(** The body of the [while] loop of [loop]: [polled] is the message the
    poll delivered, if any, and [utcnow] the clock when a heartbeat is
    recorded. *)
Definition loop_body (polled : option string) (utcnow : Z) : M Host unit :=
  match polled with
  | None => ret tt
  | Some msg =>
      modify (sync_log (Recv msg));;
      match str_split ":"%char msg with
      | [sync_id; status] =>
          (if bool_decide (status = DONE)
           then unregister_component sync_id
           else modify (λ self, set_sync_register
                                  (<[sync_id := utcnow]> (sync_register self)) self));;
          modify (sync_log (Reply "ack"))
      | _ => ret tt
      end
  end.

(** [loop]: it returns when [is_timed_out] holds at the top of an
    iteration, and is still running when the ticks are used up. *)
Fixpoint loop (ticks : list tick) : M Host unit :=
  match ticks with
  | [] => λ self, (OutOfFuel, self)
  | t :: ticks' =>
      self <- get;;
      if is_timed_out (tick_cur_time t) self then ret tt
      else (loop_body (tick_polled t) (tick_utcnow t);; loop ticks')
  end.

(** The host at the top of the iteration that follows the ticks [pre]:
    defined when [loop] gets there, that is when in each iteration of [pre]
    [is_timed_out] was false and the body returned normally. *)
Fixpoint loop_top (pre : list tick) (self : Host) : option Host :=
  match pre with
  | [] => Some self
  | t :: pre' =>
      if is_timed_out (tick_cur_time t) self then None
      else match loop_body (tick_polled t) (tick_utcnow t) self with
           | (Val _, self') => loop_top pre' self'
           | _ => None
           end
  end.

End Host.

(** ** Runs of a buffer, for the statements *)

Section Runs.
Variable DONE : string.
Variable DATASOURCE_UNFRAME : string → option event.

(** The events of the data messages of a run, in the order of arrival: a
    poll that timed out and the sentinel carry none. *)
Definition received (polls : list (option string)) : list event :=
  omap (λ polled,
          match polled with
          | Some message =>
              if bool_decide (message = DONE) then None
              else DATASOURCE_UNFRAME message
          | None => None
          end) polls.

(** The number of sentinels in a run. *)
Definition count_done (polls : list (option string)) : nat :=
  length (filter (λ polled, polled = Some DONE) polls).

(** Every data message of the run decodes to an event of a source in
    [sources]. *)
Definition decodable (sources : gset string) (polls : list (option string)) : Prop :=
  ∀ message, Some message ∈ polls → message ≠ DONE →
    ∃ ev, DATASOURCE_UNFRAME message = Some ev ∧ source_id ev ∈ sources.

End Runs.

(** Each source hands over its events in non-decreasing [dt] order: an
    event is never followed by an earlier one of the same source. *)
Fixpoint source_ordered (evs : list event) : Prop :=
  match evs with
  | [] => True
  | ev :: evs' =>
      Forall (λ ev', source_id ev' = source_id ev → dt ev ≤ dt ev') evs'
      ∧ source_ordered evs'
  end.

(** ** Chronological order, for the statements *)

Definition dt_le (a b : event) : Prop := dt a ≤ dt b.

(** What is published is in order, nothing buffered is earlier than
    something published, and each queue is in order. *)
Definition ordered_buffer (self : ParallelBuffer event event) : Prop :=
  StronglySorted dt_le (sent self)
  ∧ (∀ e k q e', e ∈ sent self → data_buffer self !! k = Some q → e' ∈ q →
       dt e ≤ dt e')
  ∧ (∀ k q, data_buffer self !! k = Some q → StronglySorted dt_le q).

(** The events [coming] still to arrive are not earlier than what their
    source has queued, nor, for a registered source, than what is
    published; and they come in source order. *)
Definition ahead (self : ParallelBuffer event event) (coming : list event) : Prop :=
  (∀ k q e e', data_buffer self !! k = Some q → e ∈ q → e' ∈ coming →
     source_id e' = k → dt e ≤ dt e')
  ∧ (∀ e e', e ∈ sent self → e' ∈ coming →
       is_Some (data_buffer self !! source_id e') → dt e ≤ dt e')
  ∧ source_ordered coming.

(** ** A small codec, for the examples *)

(** A data message is the id of its source, one character, followed by as
    many characters as its [dt]; the empty message does not decode. *)
Definition sample_unframe (msg : string) : option event :=
  match msg with
  | String c rest => Some (Event (String c EmptyString) (Z.of_nat (String.length rest)) rest)
  | EmptyString => None
  end.

Definition sample_frame (ev : event) : string :=
  String.append (source_id ev) (payload ev).

(** A transform result is a pair of a name and a value, on the wire
    [name:value]; a merged record lists the fields merged into it. *)
Definition sample_transform_unframe (msg : string) : option (string * string) :=
  match str_split ":"%char msg with
  | [name; value] => Some (name, value)
  | _ => None
  end.

Definition sample_merge (result : list (string * string)) (cur : string * string)
  : list (string * string) := result ++ [cur].

Definition sample_merge_frame (result : list (string * string)) : string :=
  foldr (λ field acc, String.append field.1 (String.append "=" (String.append field.2 acc)))
        EmptyString result.

(** The Merge of a host with one transform [X] next to the Passthrough. *)
Definition sample_Merge : ParallelBuffer (string * string) (list (string * string)) :=
  add_source "X" (add_source "PASSTHROUGH" ParallelBuffer_init).

(** A run of a Feed of two sources: [A] sends events at 1 and 3, [B] at 2
    and 4, one poll times out, and each source sends its DONE. *)
Definition sample_pre : list (option string) :=
  [Some "A."; Some "B.."; None; Some "A..."; Some "DONE"; Some "B...."].

Definition sample_polls : list (option string) := sample_pre ++ [Some "DONE"].

(** A Feed of two sources that holds two events of [A] and waits for [B]. *)
Definition sample_backlog : ParallelBuffer event event :=
  (Feed_run sample_unframe sample_frame "DONE" 5 [Some "A."; Some "A.."]
            (Feed_init ["A"; "B"])).2.

(** A host as [__init__] leaves it at time 0: the Feed, the Merge and the
    Passthrough are registered. *)
Definition sample_host : ComponentHost unit unit := ComponentHost_init 0 0 0.

(** ** Further notions, for the properties of the rest of the module *)

(** The events a buffer holds, queue after queue. *)
Definition buffered {E R} (self : ParallelBuffer E R) : list E :=
  concat ((λ kv, kv.2) <$> map_to_list (data_buffer self)).

(** The counters of a Feed agree with its log and its queues, and the log
    is a row of sends, closed by [SignalDone] exactly when the Feed is
    done. *)
Definition accounted (self : ParallelBuffer event event) : Prop :=
  received_count self = (sent_count self + pending_messages self)%nat
  ∧ sent_count self = length (sent self)
  ∧ out self = (Send <$> sent self) ++ (if done self then [SignalDone] else [])
  ∧ (done self = true →
     pending_messages self = 0%nat
     ∧ draining self = true
     ∧ ds_finished_counter self = size (data_buffer self)).

(** Reading the log of the sync socket from its start: [Some true] when
    the last request is not answered yet, [Some false] when every request
    read so far is settled, [None] once a reply was sent that is not [ack]
    or that answers no request. *)
Definition reply_step (st : option bool) (ev : sync_event) : option bool :=
  match st, ev with
  | Some _, Recv _ => Some true
  | Some true, Reply msg => if bool_decide (msg = "ack") then Some false else None
  | _, _ => None
  end.

Definition reply_state (log : list sync_event) : option bool :=
  foldl reply_step (Some false) log.

(** The frame [<id>:<status>] of the sync channel. *)
Definition sync_frame (id status : string) : string :=
  String.append id (String ":"%char status).

(** A string without a colon: [split(':')] leaves it in one piece. *)
Definition colon_free (s : string) : Prop := str_split ":"%char s = [s].

(** The ids of the entries of a registration that are of a given kind. *)
Definition is_kind (k : component_kind) (c : component) : bool :=
  match kind c, k with
  | IsDataSource, IsDataSource => true
  | IsBaseTransform, IsBaseTransform => true
  | IsOther, IsOther => true
  | _, _ => false
  end.

Definition ids_of_kind (k : component_kind) (entries : list (component * Z))
  : list string :=
  omap (λ entry : component * Z,
          if is_kind k entry.1 then Some (get_id entry.1) else None)
       entries.

(** What [next] of the Merge folds into the record: the heads of the
    queues other than the Passthrough's, in the order of the dictionary. *)
Definition merge_inputs {T} (m : gmap string (list T)) : list T :=
  omap (λ kv : string * list T,
          if bool_decide (kv.1 = "PASSTHROUGH") then None else head kv.2)
       (map_to_list m).

(** [self'] is the Feed [self] after it has published the events [pub]
    from its queues and changed nothing else. *)
Definition publishes (self self' : ParallelBuffer event event) (pub : list event)
  : Prop :=
  sent self' = sent self ++ pub
  ∧ out self' = out self ++ (Send <$> pub)
  ∧ sent_count self' = (sent_count self + length pub)%nat
  ∧ pub ++ buffered self' ≡ₚ buffered self
  ∧ received_count self' = received_count self
  ∧ draining self' = draining self
  ∧ done self' = done self
  ∧ ds_finished_counter self' = ds_finished_counter self
  ∧ dom (data_buffer self') = dom (data_buffer self).

(** The event that [do_work] queues on the outcome [polled] of a poll, if
    any: the message is not the sentinel, it decodes, and its source has a
    queue. *)
Definition appended (DONE : string) (DATASOURCE_UNFRAME : string → option event)
    (polled : option string) (self : ParallelBuffer event event) : list event :=
  match polled with
  | Some message =>
      if bool_decide (message = DONE) then []
      else
        match DATASOURCE_UNFRAME message with
        | Some ev =>
            match data_buffer self !! source_id ev with
            | Some _ => [ev]
            | None => []
            end
        | None => []
        end
  | None => []
  end.

(** ** BaseTransform and the work loop of a transform *)

Section BaseTransform.
Variable DONE : string.
(** [zp.FEED_UNFRAME] and [zp.TRANSFORM_FRAME] of [zipline.protocol]. *)
Variable FEED_UNFRAME : string → option event.
Variable TRANSFORM_FRAME : string → string → string.
(** What a subclass adds: the state it keeps in [self.state] and its
    [transform], which returns the name and the value of the result, or
    raises, and may change that state. *)
Context {U : Type}.
Variable transform : event → U → res (string * string) * U.

(** [self.transform(event)], on the object of the transform. *)
Definition call_transform (ev : event) : M (Transform * U) (string * string) :=
  λ self, let (r, u) := transform ev self.2 in (r, (self.1, u)).

(** [BaseTransform.do_work]. *)
Definition BaseTransform_do_work (polled : option string) : M (Transform * U) unit :=
  match polled with
  | None => ret tt
  | Some message =>
      if bool_decide (message = DONE) then
        modify (λ self, (mkTransform true (result_socket self.1), self.2))
      else
        match FEED_UNFRAME message with
        | None => raise DecodeError
        | Some ev =>
            cur_state <- call_transform ev;;
            modify (λ self,
                      (mkTransform (transform_done self.1)
                         (result_socket self.1
                          ++ [TRANSFORM_FRAME cur_state.1 cur_state.2]),
                       self.2))
        end
  end.

(** Modelled from the spec: the work loop of [Component], as for the
    buffers, around [BaseTransform.do_work]. *)
Fixpoint BaseTransform_run (polls : list (option string)) : M (Transform * U) unit :=
  match polls with
  | [] => ret tt
  | polled :: polls' =>
      self <- get;;
      if transform_done self.1 then ret tt
      else (BaseTransform_do_work polled;; BaseTransform_run polls')
  end.

(** Modelled from the spec: the same loop around
    [PassthroughTransform.do_work]. *)
Fixpoint Passthrough_run (polls : list (option string)) : M Transform unit :=
  match polls with
  | [] => ret tt
  | polled :: polls' =>
      self <- get;;
      if transform_done self then ret tt
      else (PassthroughTransform_do_work DONE TRANSFORM_FRAME polled;;
            Passthrough_run polls')
  end.

(** The results of a transform that does not raise, event after event. *)
Fixpoint transform_outputs (evs : list event) (u : U) : list (string * string) :=
  match evs with
  | [] => []
  | ev :: evs' =>
      match transform ev u with
      | (Val result, u') => result :: transform_outputs evs' u'
      | (_, _) => []
      end
  end.

End BaseTransform.

(** ** More fixtures, for the examples *)

(** A data source as the owner of a host registers it. *)
Definition sample_source : component := mkComponent "SRC" IsDataSource.

(** Every registered component reports DONE, one poll after the other. *)
Definition sample_done_ticks : list tick :=
  [mkTick 1 (Some (sync_frame "FEED" "DONE")) 1;
   mkTick 2 (Some (sync_frame "MERGE" "DONE")) 2;
   mkTick 3 (Some (sync_frame "PASSTHROUGH" "DONE")) 3].

(** A Merge whose two queues hold one result each. *)
Definition sample_full_Merge
  : ParallelBuffer (string * string) (list (string * string)) :=
  mkPB 0 2 false
       (<["X" := [("X", "1")]]> (<["PASSTHROUGH" := [("PASSTHROUGH", "A.")]]> ∅))
       0 false [].

(** A stateless transform that names its result [DOUBLE]. *)
Definition sample_transform (ev : event) (u : unit)
  : res (string * string) * unit :=
  (Val ("DOUBLE", String.append (payload ev) (payload ev)), u).

(** * Properties *)

(** ** Queues of a buffer *)

Section BufferFacts.
Context {E R : Type}.
Implicit Type self : ParallelBuffer E R.
Implicit Type m : gmap string (list E).

Lemma is_full_true self :
  is_full self = true ↔
  ∀ k q, data_buffer self !! k = Some q → q ≠ [].
Proof.
  unfold is_full. rewrite forallb_forall. split.
  - intros Hall k q Hk ->.
    apply elem_of_map_to_list, list_elem_of_In, Hall in Hk. done.
  - intros Hne [k q] Hin. apply list_elem_of_In, elem_of_map_to_list in Hin.
    specialize (Hne k q Hin). simpl. by destruct q.
Qed.

Lemma foldl_total (l : list (string * list E)) (a : nat) :
  foldl (λ total kv, (total + length kv.2)%nat) a l =
  (a + sum_list ((λ kv, length kv.2) <$> l))%nat.
Proof.
  revert a. induction l as [|kv l IH]; intros a; csimpl; [lia|].
  rewrite IH. lia.
Qed.

Lemma pending_messages_sum self :
  pending_messages self =
  sum_list ((λ kv, length kv.2) <$> map_to_list (data_buffer self)).
Proof. unfold pending_messages. by rewrite foldl_total. Qed.

Lemma sum_lengths_perm (l1 l2 : list (string * list E)) :
  l1 ≡ₚ l2 →
  sum_list ((λ kv, length kv.2) <$> l1) = sum_list ((λ kv, length kv.2) <$> l2).
Proof. intros Hp. by rewrite Hp. Qed.

Lemma sum_lengths_replace m k q q' :
  m !! k = Some q →
  (sum_list ((λ kv, length kv.2) <$> map_to_list (<[k := q']> m)) + length q)%nat =
  (sum_list ((λ kv, length kv.2) <$> map_to_list m) + length q')%nat.
Proof.
  intros Hk.
  rewrite <- (insert_delete_eq m k q').
  rewrite (sum_lengths_perm _ _ (map_to_list_insert (delete k m) k q' (lookup_delete_eq m k))).
  rewrite <- (sum_lengths_perm _ _ (map_to_list_delete m k q Hk)).
  csimpl. lia.
Qed.

Lemma pending_messages_zero self :
  pending_messages self = 0%nat ↔
  ∀ k q, data_buffer self !! k = Some q → q = [].
Proof.
  rewrite pending_messages_sum. split.
  - intros Hz k q Hk.
    pose proof (sum_lengths_replace _ k q [] Hk) as Hr. rewrite Hz in Hr.
    simpl in Hr. destruct q; [done | simpl in Hr; lia].
  - intros Hall.
    assert (Forall (λ kv : string * list E, kv.2 = []) (map_to_list (data_buffer self))) as HF.
    { apply Forall_forall. intros [k q] Hin. apply elem_of_map_to_list in Hin. eauto. }
    induction HF as [|[k q] l Hq _ IH]; [done|]. csimpl in *. by subst q.
Qed.

End BufferFacts.

(** ** The Feed picks the earliest head *)

Lemma foldl_next_step (l : list (string * list event))
    (acc : option (string * event * list event)) :
  match foldl next_step acc l with
  | None => acc = None ∧ ∀ kv, kv ∈ l → kv.2 = []
  | Some (k, e, rest) =>
      ((k, e :: rest) ∈ l ∨ acc = Some (k, e, rest))
      ∧ (∀ k' e' rest', (k', e' :: rest') ∈ l → dt e ≤ dt e')
      ∧ (∀ k0 e0 r0, acc = Some (k0, e0, r0) → dt e ≤ dt e0)
  end.
Proof.
  revert acc. induction l as [|[k1 q1] l IH]; intros acc.
  - simpl. destruct acc as [[[k e] rest]|].
    + split; [by right|]. split.
      * intros k' e' rest' Hin. by apply elem_of_nil in Hin.
      * intros k0 e0 r0 [= _ <- _]. lia.
    + split; [done|]. intros kv Hin. by apply elem_of_nil in Hin.
  - simpl. specialize (IH (next_step acc (k1, q1))).
    destruct (foldl next_step (next_step acc (k1, q1)) l) as [[[k e] rest]|].
    + destruct IH as (Hsrc & Hmin & Hacc).
      unfold next_step in Hsrc, Hacc. simpl in Hsrc, Hacc.
      destruct q1 as [|c rest1].
      * split; [|split].
        -- destruct Hsrc as [Hin|Heq]; [left; by apply elem_of_cons; right | by right].
        -- intros k' e' rest' Hin. apply elem_of_cons in Hin as [[=]|Hin]; eauto.
        -- done.
      * destruct acc as [[[k0 e0] r0]|].
        -- case_bool_decide as Hle.
           ++ split; [|split].
              ** destruct Hsrc as [Hin|[= -> -> ->]]; left; apply elem_of_cons; auto.
              ** intros k' e' rest' Hin.
                 apply elem_of_cons in Hin as [[= -> -> ->]|Hin]; eauto.
              ** intros k2 e2 r2 [= -> -> ->]. specialize (Hacc _ _ _ eq_refl). lia.
           ++ split; [|split].
              ** destruct Hsrc as [Hin|Heq]; [left; apply elem_of_cons; auto | by right].
              ** intros k' e' rest' Hin.
                 apply elem_of_cons in Hin as [[= -> -> ->]|Hin]; [|eauto].
                 specialize (Hacc _ _ _ eq_refl). lia.
              ** done.
        -- split; [|split].
           ++ destruct Hsrc as [Hin|[= -> -> ->]]; left; apply elem_of_cons; auto.
           ++ intros k' e' rest' Hin.
              apply elem_of_cons in Hin as [[= -> -> ->]|Hin]; eauto.
           ++ done.
    + destruct IH as (Hacc & Hall). unfold next_step in Hacc. simpl in Hacc.
      destruct q1 as [|c rest1].
      * split; [done|]. intros kv Hin.
        apply elem_of_cons in Hin as [->|Hin]; [done | eauto].
      * destruct acc as [[[k0 e0] r0]|]; [case_bool_decide|]; done.
Qed.

Section FeedFacts.
Variable DATASOURCE_UNFRAME : string → option event.
Variable FEED_FRAME : event → string.
Variable DONE : string.
Implicit Type self : ParallelBuffer event event.

(** The state left by one publication: the head [e] of queue [k] popped,
    sent, and counted. *)
Lemma Feed_send_next_cases self :
  (Feed_send_next DATASOURCE_UNFRAME FEED_FRAME self = (Val tt, self)
   ∧ (is_full self || draining self = false
      ∨ ∀ k q, data_buffer self !! k = Some q → q = []))
  ∨ (is_full self || draining self = true
     ∧ ∃ k e rest,
         data_buffer self !! k = Some (e :: rest)
         ∧ (∀ k' e' rest', data_buffer self !! k' = Some (e' :: rest') → dt e ≤ dt e')
         ∧ Feed_send_next DATASOURCE_UNFRAME FEED_FRAME self =
           (Val tt, mkPB (S (sent_count self)) (received_count self) (draining self)
                         (<[k := rest]> (data_buffer self))
                         (ds_finished_counter self) (done self)
                         (out self ++ [Send e]))).
Proof.
  destruct (is_full self || draining self) eqn:Hgate.
  - pose proof (foldl_next_step (map_to_list (data_buffer self)) None) as Hsel.
    unfold Feed_send_next, send_next, bind, get. simpl. rewrite Hgate. simpl.
    unfold ParallelBuffer_next, bind, get. simpl. rewrite Hgate. simpl.
    destruct (foldl next_step None (map_to_list (data_buffer self))) as [[[k e] rest]|].
    + right. split; [done|]. exists k, e, rest.
      destruct Hsel as ([Hin|?] & Hmin & _); [|done].
      apply elem_of_map_to_list in Hin. split; [done|]. split; [|reflexivity].
      intros k' e' rest' Hk'. apply (Hmin k' e' rest'). by apply elem_of_map_to_list.
    + left. split; [done|]. right. intros k q Hk.
      destruct Hsel as [_ Hall]. apply (Hall (k, q)). by apply elem_of_map_to_list.
  - left. unfold Feed_send_next, send_next, bind, get. rewrite Hgate. simpl. auto.
Qed.

(** While draining, a publication takes exactly one event out of a buffer
    that still holds one. *)
Lemma Feed_send_next_draining self :
  draining self = true →
  (0 < pending_messages self)%nat →
  ∃ k e rest,
    data_buffer self !! k = Some (e :: rest)
    ∧ (∀ k' e' rest', data_buffer self !! k' = Some (e' :: rest') → dt e ≤ dt e')
    ∧ Feed_send_next DATASOURCE_UNFRAME FEED_FRAME self =
      (Val tt, mkPB (S (sent_count self)) (received_count self) (draining self)
                    (<[k := rest]> (data_buffer self))
                    (ds_finished_counter self) (done self)
                    (out self ++ [Send e]))
    ∧ (pending_messages
         (mkPB (S (sent_count self)) (received_count self) (draining self)
               (<[k := rest]> (data_buffer self))
               (ds_finished_counter self) (done self)
               (out self ++ [Send e])) + 1)%nat = pending_messages self.
Proof.
  intros Hdr Hpos.
  destruct (Feed_send_next_cases self) as [[_ [Hgate|Hempty]]|[_ (k & e & rest & Hk & Hmin & Hrun)]].
  - rewrite Hdr, orb_true_r in Hgate. done.
  - apply pending_messages_zero in Hempty. lia.
  - exists k, e, rest. repeat split; try done.
    rewrite !pending_messages_sum. simpl.
    pose proof (sum_lengths_replace (data_buffer self) k (e :: rest) rest Hk) as Hr.
    simpl in Hr. lia.
Qed.

(** The loop of [drain] on a draining buffer: with more fuel than pending
    events it ends normally, having published each pending event once. *)
Lemma Feed_drain_loop_spec fuel self :
  draining self = true →
  (pending_messages self < fuel)%nat →
  ∃ self' evs,
    Feed_drain_loop DATASOURCE_UNFRAME FEED_FRAME fuel self = (Val tt, self')
    ∧ pending_messages self' = 0%nat
    ∧ length evs = pending_messages self
    ∧ out self' = out self ++ (Send <$> evs)
    ∧ sent_count self' = (sent_count self + pending_messages self)%nat
    ∧ received_count self' = received_count self
    ∧ draining self' = true
    ∧ ds_finished_counter self' = ds_finished_counter self
    ∧ done self' = done self.
Proof.
  revert self. induction fuel as [|fuel IH]; intros self Hdr Hlt; [lia|].
  unfold Feed_drain_loop. simpl. unfold bind, get. simpl.
  destruct (Nat.ltb 0 (pending_messages self)) eqn:Hpos.
  - apply Nat.ltb_lt in Hpos.
    destruct (Feed_send_next_draining self Hdr Hpos)
      as (k & e & rest & Hk & Hmin & Hrun & Hdec).
    unfold Feed_send_next in Hrun. rewrite Hrun.
    match type of Hrun with _ = (_, ?s) => set (self1 := s) in * end.
    destruct (IH self1) as (self' & evs & Hloop & Hz & Hlen & Hout & Hsent & Hrecv & Hd & Hc & Hdone).
    { done. }
    { lia. }
    exists self', (e :: evs). unfold Feed_drain_loop in Hloop. rewrite Hloop.
    repeat split; try done.
    + simpl. lia.
    + rewrite Hout. simpl. by rewrite <- app_assoc.
    + rewrite Hsent. simpl. lia.
  - apply Nat.ltb_ge in Hpos. exists self, []. simpl.
    rewrite app_nil_r. repeat split; try done; lia.
Qed.

(** [drain] sets the flag and runs the loop. *)
Lemma Feed_drain_spec fuel self :
  (pending_messages self < fuel)%nat →
  ∃ self' evs,
    Feed_drain DATASOURCE_UNFRAME FEED_FRAME fuel self = (Val tt, self')
    ∧ pending_messages self' = 0%nat
    ∧ length evs = pending_messages self
    ∧ out self' = out self ++ (Send <$> evs)
    ∧ sent_count self' = (sent_count self + pending_messages self)%nat
    ∧ received_count self' = received_count self
    ∧ draining self' = true
    ∧ ds_finished_counter self' = ds_finished_counter self
    ∧ done self' = done self.
Proof.
  intros Hlt.
  destruct (Feed_drain_loop_spec fuel (set_draining true self))
    as (self' & evs & Hloop & Hrest); [done | done |].
  exists self', evs. split; [|exact Hrest].
  unfold Feed_drain, drain, bind, modify. simpl. exact Hloop.
Qed.

(** C8: the Feed's [drain] terminates.  Once draining, each [send_next]
    takes exactly one event out of a buffer that still holds one; the loop,
    given more tests of its condition than there are buffered events, ends
    normally with an empty buffer after publishing each buffered event once;
    and [do_work] on the last DONE then reaches [signal_done]. *)
Theorem Feed_drain_terminates self fuel :
  (pending_messages self < fuel)%nat →
  (∀ s, draining s = true → (0 < pending_messages s)%nat →
     ∃ s', Feed_send_next DATASOURCE_UNFRAME FEED_FRAME s = (Val tt, s')
           ∧ (pending_messages s' + 1)%nat = pending_messages s)
  ∧ (∃ self' evs,
       Feed_drain DATASOURCE_UNFRAME FEED_FRAME fuel self = (Val tt, self')
       ∧ pending_messages self' = 0%nat
       ∧ length evs = pending_messages self
       ∧ out self' = out self ++ (Send <$> evs))
  ∧ (size (data_buffer self) = S (ds_finished_counter self) →
     ∃ self' evs,
       Feed_do_work DATASOURCE_UNFRAME FEED_FRAME DONE fuel (Some DONE) self
         = (Val tt, self')
       ∧ pending_messages self' = 0%nat
       ∧ length evs = pending_messages self
       ∧ out self' = out self ++ (Send <$> evs) ++ [SignalDone]
       ∧ done self' = true).
Proof.
  intros Hlt. split; [|split].
  - intros s Hdr Hpos.
    destruct (Feed_send_next_draining s Hdr Hpos) as (k & e & rest & _ & _ & Hrun & Hdec).
    eexists. split; [exact Hrun | exact Hdec].
  - destruct (Feed_drain_spec fuel self Hlt) as (self' & evs & Hd & Hz & Hlen & Hout & _).
    exists self', evs. auto.
  - intros Hsize.
    destruct (Feed_drain_spec fuel
                (set_ds_finished_counter (S (ds_finished_counter self)) self))
      as (self' & evs & Hd & Hz & Hlen & Hout & _); [done|].
    exists (set_done true (emit SignalDone self')), evs.
    unfold Feed_do_work, do_work. rewrite bool_decide_eq_true_2 by done.
    unfold bind at 1. unfold modify at 1. unfold bind at 1. unfold get at 1.
    simpl. rewrite Hsize, Nat.eqb_refl.
    unfold bind at 1. unfold Feed_drain in Hd. rewrite Hd.
    unfold signal_done, modify. simpl.
    repeat split; try done.
    rewrite Hout. simpl. by rewrite <- app_assoc.
Qed.

(** ** Counting: what is received is published *)

Lemma Feed_run_done fuel polls self :
  done self = true →
  Feed_run DATASOURCE_UNFRAME FEED_FRAME DONE fuel polls self = (Val tt, self).
Proof.
  intros Hd. destruct polls as [|p polls]; [done|].
  unfold Feed_run. simpl. unfold bind, get. simpl. by rewrite Hd.
Qed.

Lemma Feed_run_cons fuel p polls self :
  done self = false →
  Feed_run DATASOURCE_UNFRAME FEED_FRAME DONE fuel (p :: polls) self =
  match Feed_do_work DATASOURCE_UNFRAME FEED_FRAME DONE fuel p self with
  | (Val _, self') => Feed_run DATASOURCE_UNFRAME FEED_FRAME DONE fuel polls self'
  | (Exc e, self') => (Exc e, self')
  | (OutOfFuel, self') => (OutOfFuel, self')
  end.
Proof.
  intros Hd. unfold Feed_run, Feed_do_work. simpl. unfold bind at 1, get at 1.
  simpl. rewrite Hd. reflexivity.
Qed.

Lemma Feed_run_app fuel polls1 polls2 self :
  Feed_run DATASOURCE_UNFRAME FEED_FRAME DONE fuel (polls1 ++ polls2) self =
  match Feed_run DATASOURCE_UNFRAME FEED_FRAME DONE fuel polls1 self with
  | (Val _, self') => Feed_run DATASOURCE_UNFRAME FEED_FRAME DONE fuel polls2 self'
  | (Exc e, self') => (Exc e, self')
  | (OutOfFuel, self') => (OutOfFuel, self')
  end.
Proof.
  revert self. induction polls1 as [|p polls1 IH]; intros self; [done|].
  destruct (done self) eqn:Hd.
  - by rewrite !Feed_run_done by done.
  - rewrite <- app_comm_cons, !Feed_run_cons by done.
    destruct (Feed_do_work _ _ _ _ _ _) as [[[]| |] self1]; [apply IH|done|done].
Qed.

(** [do_work] on a data message of a registered source: the event is
    queued, and published at once or kept. *)
Lemma Feed_do_work_data fuel self message ev q :
  message ≠ DONE →
  DATASOURCE_UNFRAME message = Some ev →
  data_buffer self !! source_id ev = Some q →
  ∃ self',
    Feed_do_work DATASOURCE_UNFRAME FEED_FRAME DONE fuel (Some message) self
      = (Val tt, self')
    ∧ received_count self' = S (received_count self)
    ∧ draining self' = draining self
    ∧ done self' = done self
    ∧ ds_finished_counter self' = ds_finished_counter self
    ∧ dom (data_buffer self') = dom (data_buffer self)
    ∧ ((sent_count self' = sent_count self ∧ out self' = out self
        ∧ pending_messages self' = S (pending_messages self))
       ∨ (∃ ev', sent_count self' = S (sent_count self)
                 ∧ out self' = out self ++ [Send ev']
                 ∧ pending_messages self' = pending_messages self)).
Proof.
  intros Hm Hu Hq.
  unfold Feed_do_work, do_work. rewrite bool_decide_eq_false_2 by done.
  unfold bind at 1. simpl. unfold ParallelBuffer_unframe. rewrite Hu.
  unfold ret at 1. unfold bind at 1.
  unfold ParallelBuffer_append, bind, get. simpl. rewrite Hq. simpl.
  set (self1 := set_received_count _ _).
  assert (pending_messages self1 = S (pending_messages self)) as Hp1.
  { rewrite !pending_messages_sum. subst self1. simpl.
    pose proof (sum_lengths_replace (data_buffer self) _ q (q ++ [ev]) Hq) as Hr.
    rewrite length_app in Hr. simpl in Hr. lia. }
  assert (dom (data_buffer self1) = dom (data_buffer self)) as Hdom1.
  { subst self1. simpl. apply dom_insert_lookup_L. by rewrite Hq. }
  destruct (Feed_send_next_cases self1)
    as [[Hrun _]|[_ (k & e & rest & Hk & Hmin & Hrun)]];
    unfold Feed_send_next in Hrun; rewrite Hrun.
  - exists self1. repeat split; try done. left. by subst self1.
  - eexists. split; [reflexivity|]. simpl. repeat split; try done.
    + rewrite <- Hdom1. apply dom_insert_lookup_L. by rewrite Hk.
    + right. exists e. split; [done|]. split; [done|].
      match goal with |- pending_messages ?s = _ => set (self2 := s) end.
      rewrite (pending_messages_sum self2).
      change (data_buffer self2) with (<[k := rest]> (data_buffer self1)).
      pose proof (sum_lengths_replace (data_buffer self1) k (e :: rest) rest Hk) as Hr.
      rewrite (pending_messages_sum self1) in Hp1. rewrite length_cons in Hr. lia.
Qed.

Lemma count_done_cons_done polls :
  count_done DONE (Some DONE :: polls) = S (count_done DONE polls).
Proof. unfold count_done. by rewrite filter_cons_True. Qed.

Lemma count_done_cons_other p polls :
  p ≠ Some DONE → count_done DONE (p :: polls) = count_done DONE polls.
Proof. intros Hp. unfold count_done. by rewrite filter_cons_False. Qed.

Lemma count_done_app polls1 polls2 :
  count_done DONE (polls1 ++ polls2) =
  (count_done DONE polls1 + count_done DONE polls2)%nat.
Proof. unfold count_done. by rewrite filter_app, length_app. Qed.

Lemma decodable_cons sources p polls :
  decodable DONE DATASOURCE_UNFRAME sources (p :: polls) →
  decodable DONE DATASOURCE_UNFRAME sources polls.
Proof. intros Hd message Hin. apply Hd. by apply elem_of_cons; right. Qed.

Lemma Feed_init_from (sources : list string) (self0 : ParallelBuffer event event) :
  let self := foldl (λ self s, add_source s self) self0 sources in
  sent_count self = sent_count self0
  ∧ received_count self = received_count self0
  ∧ draining self = draining self0
  ∧ ds_finished_counter self = ds_finished_counter self0
  ∧ done self = done self0
  ∧ out self = out self0
  ∧ dom (data_buffer self) = dom (data_buffer self0) ∪ list_to_set sources
  ∧ ((∀ k q, data_buffer self0 !! k = Some q → q = []) →
     ∀ k q, data_buffer self !! k = Some q → q = []).
Proof.
  revert self0. induction sources as [|s sources IH]; intros self0; simpl.
  - split_and!; try done. by rewrite union_empty_r_L.
  - destruct (IH (add_source s self0)) as (H1 & H2 & H3 & H4 & H5 & H6 & H7 & H8).
    split_and!; try done.
    + rewrite H7. simpl. rewrite dom_insert_L.
      rewrite (union_comm_L {[s]} (dom _)). by rewrite union_assoc_L.
    + intros Hempty. apply H8. intros k q. simpl.
      rewrite lookup_insert. case_decide; [by intros [= <-] | apply Hempty].
Qed.

(** Before the DONE that completes the count, the Feed keeps working: it
    receives every data message and publishes some of the events. *)
Lemma Feed_run_before_last fuel pre self :
  done self = false →
  draining self = false →
  (ds_finished_counter self + count_done DONE pre < size (data_buffer self))%nat →
  decodable DONE DATASOURCE_UNFRAME (dom (data_buffer self)) pre →
  ∃ self' evs,
    Feed_run DATASOURCE_UNFRAME FEED_FRAME DONE fuel pre self = (Val tt, self')
    ∧ done self' = false
    ∧ draining self' = false
    ∧ ds_finished_counter self' = (ds_finished_counter self + count_done DONE pre)%nat
    ∧ dom (data_buffer self') = dom (data_buffer self)
    ∧ received_count self' =
      (received_count self + length (received DONE DATASOURCE_UNFRAME pre))%nat
    ∧ out self' = out self ++ (Send <$> evs)
    ∧ sent_count self' = (sent_count self + length evs)%nat
    ∧ (pending_messages self' + length evs)%nat =
      (pending_messages self + length (received DONE DATASOURCE_UNFRAME pre))%nat.
Proof.
  revert self. induction pre as [|p pre IH]; intros self Hdone Hdr Hcnt Hdec.
  - exists self, []. simpl. rewrite app_nil_r. repeat split; try done; lia.
  - rewrite Feed_run_cons by done.
    destruct p as [message|]; [destruct (decide (message = DONE)) as [->|Hne]|].
    + rewrite count_done_cons_done in Hcnt |- *.
      unfold Feed_do_work, do_work. rewrite bool_decide_eq_true_2 by done.
      unfold bind at 1. unfold modify at 1. unfold bind at 1. unfold get at 1.
      simpl.
      destruct (Nat.eqb_neq (size (data_buffer self)) (S (ds_finished_counter self)))
        as [_ Hneq]. rewrite Hneq by lia. unfold ret at 1.
      destruct (IH (set_ds_finished_counter (S (ds_finished_counter self)) self))
        as (self' & evs & Hrun & H1 & H2 & H3 & H4 & H5 & H6 & H7 & H8);
        [done | done | simpl; lia | by eapply decodable_cons |].
      exists self', evs. simpl in *. rewrite bool_decide_eq_true_2 by done.
      repeat split; try done. lia.
    + destruct (Hdec message) as (ev & Hu & Hsrc); [by apply elem_of_cons; left | done |].
      apply elem_of_dom in Hsrc as [q Hq].
      destruct (Feed_do_work_data fuel self message ev q Hne Hu Hq)
        as (self1 & Hrun1 & Hr1 & Hdr1 & Hd1 & Hc1 & Hdom1 & Hcases).
      rewrite Hrun1.
      rewrite count_done_cons_other in Hcnt |- * by congruence.
      destruct (IH self1) as (self' & evs & Hrun & H1 & H2 & H3 & H4 & H5 & H6 & H7 & H8).
      { congruence. }
      { congruence. }
      { rewrite Hc1, <- (size_dom (D := gset string)), Hdom1, size_dom. done. }
      { rewrite Hdom1. by eapply decodable_cons. }
      assert (received DONE DATASOURCE_UNFRAME (Some message :: pre) =
              ev :: received DONE DATASOURCE_UNFRAME pre) as Hrecv.
      { unfold received. simpl. rewrite bool_decide_eq_false_2 by done. by rewrite Hu. }
      rewrite Hrecv. simpl.
      destruct Hcases as [(Hs & Ho & Hp)|(ev' & Hs & Ho & Hp)].
      * exists self', evs.
        split_and!; [done | done | done | lia | congruence | lia | congruence | lia | lia].
      * exists self', (ev' :: evs).
        split_and!; [done | done | done | lia | congruence | lia | | simpl; lia | simpl; lia].
        rewrite H6, Ho. simpl. by rewrite <- app_assoc.
    + unfold Feed_do_work, do_work, ret at 1.
      rewrite count_done_cons_other in Hcnt |- * by done.
      destruct (IH self) as (self' & evs & Hrun & Hrest);
        [done | done | done | by eapply decodable_cons |].
      exists self', evs. split; [done|]. exact Hrest.
Qed.

(** [do_work] on the DONE that completes the count: drain, then signal. *)
Lemma Feed_do_work_last_done fuel self :
  size (data_buffer self) = S (ds_finished_counter self) →
  (pending_messages self < fuel)%nat →
  ∃ self' evs,
    Feed_do_work DATASOURCE_UNFRAME FEED_FRAME DONE fuel (Some DONE) self
      = (Val tt, self')
    ∧ pending_messages self' = 0%nat
    ∧ length evs = pending_messages self
    ∧ out self' = out self ++ (Send <$> evs) ++ [SignalDone]
    ∧ sent_count self' = (sent_count self + pending_messages self)%nat
    ∧ received_count self' = received_count self
    ∧ done self' = true.
Proof.
  intros Hsize Hlt.
  destruct (Feed_drain_spec fuel
              (set_ds_finished_counter (S (ds_finished_counter self)) self))
    as (self' & evs & Hd & Hz & Hlen & Hout & Hs & Hr & _); [done|].
  exists (set_done true (emit SignalDone self')), evs.
  unfold Feed_do_work, do_work. rewrite bool_decide_eq_true_2 by done.
  unfold bind at 1. unfold modify at 1. unfold bind at 1. unfold get at 1.
  simpl. rewrite Hsize, Nat.eqb_refl.
  unfold bind at 1. unfold Feed_drain in Hd. rewrite Hd.
  unfold signal_done, modify. simpl.
  split_and!; try done.
  rewrite Hout. simpl. by rewrite <- app_assoc.
Qed.

(** C2: in a run of the Feed whose data messages all decode to events of
    its sources, the DONE that completes the count of the sources makes the
    Feed publish what is still buffered; it has then sent exactly as many
    events as it received ([sent_count = received_count], the number of data
    messages), and only then does it signal that it is done: before that
    DONE it never has. *)
Theorem Feed_emits_all_then_done (sources : list string)
    (pre : list (option string)) (fuel : nat) :
  decodable DONE DATASOURCE_UNFRAME (list_to_set sources) pre →
  S (count_done DONE pre) = size (data_buffer (Feed_init sources)) →
  (length (received DONE DATASOURCE_UNFRAME pre) < fuel)%nat →
  ∃ self' evs,
    Feed_run DATASOURCE_UNFRAME FEED_FRAME DONE fuel (pre ++ [Some DONE])
             (Feed_init sources) = (Val tt, self')
    ∧ out self' = (Send <$> evs) ++ [SignalDone]
    ∧ length evs = length (received DONE DATASOURCE_UNFRAME pre)
    ∧ sent_count self' = length (received DONE DATASOURCE_UNFRAME pre)
    ∧ received_count self' = length (received DONE DATASOURCE_UNFRAME pre)
    ∧ pending_messages self' = 0%nat
    ∧ done self' = true
    ∧ ∀ pre1 pre2, pre = pre1 ++ pre2 →
        let before := (Feed_run DATASOURCE_UNFRAME FEED_FRAME DONE fuel pre1
                                (Feed_init sources)).2 in
        done before = false ∧ SignalDone ∉ out before.
Proof.
  intros Hdec Hcnt Hfuel.
  destruct (Feed_init_from sources ParallelBuffer_init)
    as (Is & Ir & Idr & Ic & Id & Io & Idom & Iempty).
  fold (Feed_init sources) in Is, Ir, Idr, Ic, Id, Io, Idom, Iempty.
  simpl in Is, Ir, Idr, Ic, Id, Io, Idom.
  rewrite dom_empty_L, union_empty_l_L in Idom.
  assert (pending_messages (Feed_init sources) = 0%nat) as Ip.
  { apply pending_messages_zero. apply Iempty. intros k q. simpl.
    by rewrite lookup_empty. }
  destruct (Feed_run_before_last fuel pre (Feed_init sources))
    as (self1 & evs1 & Hrun1 & Hd1 & Hdr1 & Hc1 & Hdom1 & Hr1 & Ho1 & Hs1 & Hp1);
    [done | done | rewrite Ic; lia | by rewrite Idom |].
  destruct (Feed_do_work_last_done fuel self1)
    as (self2 & evs2 & Hrun2 & Hz2 & Hlen2 & Ho2 & Hs2 & Hr2 & Hd2).
  { rewrite <- (size_dom (D := gset string)), Hdom1, size_dom. lia. }
  { lia. }
  exists self2, (evs1 ++ evs2).
  split_and!.
  - rewrite Feed_run_app, Hrun1, Feed_run_cons, Hrun2 by done. reflexivity.
  - rewrite Ho2, Ho1, Io, fmap_app. simpl. by rewrite <- !app_assoc.
  - rewrite length_app. lia.
  - lia.
  - lia.
  - done.
  - done.
  - intros pre1 pre2 ->.
    destruct (Feed_run_before_last fuel pre1 (Feed_init sources))
      as (self3 & evs3 & Hrun3 & Hd3 & _ & _ & _ & _ & Ho3 & _).
    { done. }
    { done. }
    { rewrite count_done_app in Hcnt. rewrite Ic. lia. }
    { rewrite Idom. intros message Hin. apply Hdec, elem_of_app. by left. }
    simpl. rewrite Hrun3. simpl. split; [done|].
    rewrite Ho3, Io. simpl. intros Hin.
    apply list_elem_of_fmap in Hin as (? & [=] & _).
Qed.

(** ** Chronological order of the Feed *)

Lemma StronglySorted_consecutive (l : list event) i a b :
  StronglySorted dt_le l → l !! i = Some a → l !! S i = Some b → dt a ≤ dt b.
Proof.
  intros Hs. revert i. induction Hs as [|x l Hs IH Hall]; intros i Ha Hb; [done|].
  destruct i as [|i]; simpl in *.
  - injection Ha as ->. rewrite Forall_forall in Hall. apply Hall.
    by eapply list_elem_of_lookup_2.
  - by eapply IH.
Qed.

Lemma sent_emit_Send self ev : sent (emit (Send ev) self) = sent self ++ [ev].
Proof. unfold sent. simpl. by rewrite omap_app. Qed.

Lemma sent_emit_SignalDone self : sent (emit SignalDone self) = sent self.
Proof. unfold sent. simpl. by rewrite omap_app, app_nil_r. Qed.

(** Publishing the earliest head keeps the buffer ordered. *)
Lemma ordered_buffer_pop self k e rest :
  ordered_buffer self →
  data_buffer self !! k = Some (e :: rest) →
  (∀ k' e' rest', data_buffer self !! k' = Some (e' :: rest') → dt e ≤ dt e') →
  ordered_buffer
    (mkPB (S (sent_count self)) (received_count self) (draining self)
          (<[k := rest]> (data_buffer self))
          (ds_finished_counter self) (done self) (out self ++ [Send e])).
Proof.
  intros (Hsorted & Hbuf & Hqs) Hk Hmin.
  assert (∀ k' q' e', data_buffer self !! k' = Some q' → e' ∈ q' → dt e ≤ dt e')
    as Hfirst.
  { intros k' q' e' Hk' Hin. destruct q' as [|h' t']; [by apply elem_of_nil in Hin|].
    specialize (Hmin _ _ _ Hk').
    apply elem_of_cons in Hin as [->|Hin]; [done|].
    apply Hqs, StronglySorted_inv in Hk' as [_ Hall].
    rewrite Forall_forall in Hall. specialize (Hall _ Hin). unfold dt_le in Hall. lia. }
  assert (∀ k' q' e', <[k := rest]> (data_buffer self) !! k' = Some q' → e' ∈ q' →
            ∃ q, data_buffer self !! k' = Some q ∧ e' ∈ q) as Hsub.
  { intros k' q' e'. rewrite lookup_insert. case_decide as Hkk.
    - intros [= <-] Hin. subst k'. exists (e :: rest). split; [done|].
      by apply elem_of_cons; right.
    - intros Hk' Hin. eauto. }
  unfold ordered_buffer.
  change (sent (mkPB _ _ _ _ _ _ (out self ++ [Send e])))
    with (sent (emit (Send e) self)).
  rewrite sent_emit_Send. simpl. split_and!.
  - apply StronglySorted_app_2; [|done|repeat constructor].
    intros x1 x2 Hx1 Hx2. apply list_elem_of_singleton in Hx2 as ->.
    eapply Hbuf; [done | exact Hk | by apply elem_of_cons; left].
  - intros x k' q' e' Hx Hk' Hin.
    destruct (Hsub _ _ _ Hk' Hin) as (q & Hq & Hin').
    apply elem_of_app in Hx as [Hx|Hx]; [by eapply Hbuf|].
    apply list_elem_of_singleton in Hx as ->. by eapply Hfirst.
  - intros k' q'. rewrite lookup_insert. case_decide.
    + intros [= <-]. by apply Hqs, StronglySorted_inv in Hk as [? _].
    + apply Hqs.
Qed.

(** Whatever the fuel, the loop of [drain] leaves an ordered buffer. *)
Lemma Feed_drain_loop_ordered fuel self :
  draining self = true →
  ordered_buffer self →
  ordered_buffer (Feed_drain_loop DATASOURCE_UNFRAME FEED_FRAME fuel self).2.
Proof.
  revert self. induction fuel as [|fuel IH]; intros self Hdr Hord; [done|].
  unfold Feed_drain_loop. simpl. unfold bind, get. simpl.
  destruct (Nat.ltb 0 (pending_messages self)) eqn:Hpos; [|done].
  apply Nat.ltb_lt in Hpos.
  destruct (Feed_send_next_draining self Hdr Hpos)
    as (k & e & rest & Hk & Hmin & Hrun & _).
  unfold Feed_send_next in Hrun. rewrite Hrun.
  apply IH; [done|]. by apply ordered_buffer_pop.
Qed.

(** Queuing the next event of a run keeps the buffer ordered and the rest
    of the run ahead of it. *)
Lemma ordered_buffer_append self ev coming q :
  ordered_buffer self →
  ahead self (ev :: coming) →
  data_buffer self !! source_id ev = Some q →
  let self1 := set_received_count (S (received_count self))
                 (set_data_buffer (<[source_id ev := q ++ [ev]]> (data_buffer self)) self) in
  ordered_buffer self1 ∧ ahead self1 coming.
Proof.
  intros (Hsorted & Hbuf & Hqs) (Hsrc & Hpub & Hforall & Hso) Hq. simpl.
  rewrite Forall_forall in Hforall.
  split; split_and!; change (sent (set_received_count _ _)) with (sent self); simpl.
  - done.
  - intros e k q' e' He. rewrite lookup_insert. case_decide as Hkk.
    + intros [= <-] Hin. apply elem_of_app in Hin as [Hin|Hin].
      * by eapply Hbuf.
      * apply list_elem_of_singleton in Hin as ->.
        apply Hpub; [done | by apply elem_of_cons; left | by rewrite Hq].
    + intros Hk' Hin. by eapply Hbuf.
  - intros k q'. rewrite lookup_insert. case_decide as Hkk.
    + intros [= <-]. apply StronglySorted_app_2; [|by apply Hqs in Hq|repeat constructor].
      intros x1 x2 Hx1 Hx2. apply list_elem_of_singleton in Hx2 as ->.
      eapply Hsrc; [exact Hq | done | by apply elem_of_cons; left | done].
    + apply Hqs.
  - intros k q' e e'. rewrite lookup_insert. case_decide as Hkk.
    + intros [= <-] Hin Hin' Hid. apply elem_of_app in Hin as [Hin|Hin].
      * eapply Hsrc; [exact Hq | done | by apply elem_of_cons; right | congruence].
      * apply list_elem_of_singleton in Hin as ->. apply Hforall; [done | congruence].
    + intros Hk' Hin Hin' Hid.
      eapply Hsrc; [exact Hk' | done | by apply elem_of_cons; right | done].
  - intros e e' He Hin'. rewrite lookup_insert. case_decide as Hkk.
    + intros _. apply Hpub; [done | by apply elem_of_cons; right |].
      rewrite <- Hkk, Hq. eauto.
    + intros Hsome. apply Hpub; [done | by apply elem_of_cons; right | done].
  - done.
Qed.

(** Publishing from a full buffer keeps the rest of the run ahead. *)
Lemma ahead_pop self coming k e rest :
  ordered_buffer self →
  ahead self coming →
  is_full self = true →
  data_buffer self !! k = Some (e :: rest) →
  (∀ k' e' rest', data_buffer self !! k' = Some (e' :: rest') → dt e ≤ dt e') →
  ahead
    (mkPB (S (sent_count self)) (received_count self) (draining self)
          (<[k := rest]> (data_buffer self))
          (ds_finished_counter self) (done self) (out self ++ [Send e]))
    coming.
Proof.
  intros (Hsorted & Hbuf & Hqs) (Hsrc & Hpub & Hso) Hfull Hk Hmin.
  rewrite is_full_true in Hfull.
  unfold ahead.
  change (sent (mkPB _ _ _ _ _ _ (out self ++ [Send e])))
    with (sent (emit (Send e) self)).
  rewrite sent_emit_Send. simpl. split_and!.
  - intros k' q' x e'. rewrite lookup_insert. case_decide as Hkk.
    + intros [= <-] Hin Hin' Hid. subst k'.
      eapply Hsrc; [exact Hk | by apply elem_of_cons; right | done | done].
    + intros Hk'. by eapply Hsrc.
  - intros x e' Hx Hin' Hsome.
    assert (is_Some (data_buffer self !! source_id e')) as [q' Hq'].
    { rewrite lookup_insert in Hsome. case_decide as Hkk; [|done].
      rewrite <- Hkk, Hk. eauto. }
    apply elem_of_app in Hx as [Hx|Hx].
    { apply Hpub; [done | done | by rewrite Hq']. }
    apply list_elem_of_singleton in Hx as ->.
    destruct q' as [|h' t']; [by apply Hfull in Hq'|].
    specialize (Hmin _ _ _ Hq').
    assert (dt h' ≤ dt e'); [|lia].
    eapply Hsrc; [exact Hq' | by apply elem_of_cons; left | done | done].
  - done.
Qed.

(** The work loop keeps the buffer ordered, whatever ends it. *)
Lemma Feed_run_ordered fuel polls self :
  draining self = false →
  ordered_buffer self →
  ahead self (received DONE DATASOURCE_UNFRAME polls) →
  ordered_buffer (Feed_run DATASOURCE_UNFRAME FEED_FRAME DONE fuel polls self).2.
Proof.
  revert self. induction polls as [|p polls IH]; intros self Hdr Hord Hah; [done|].
  destruct (done self) eqn:Hdone; [by rewrite Feed_run_done|].
  rewrite Feed_run_cons by done.
  destruct p as [message|]; [destruct (decide (message = DONE)) as [->|Hne]|].
  - (* the sentinel *)
    assert (received DONE DATASOURCE_UNFRAME (Some DONE :: polls) =
            received DONE DATASOURCE_UNFRAME polls) as Hrecv.
    { unfold received. simpl. by rewrite bool_decide_eq_true_2. }
    rewrite Hrecv in Hah.
    unfold Feed_do_work, do_work. rewrite bool_decide_eq_true_2 by done.
    unfold bind at 1. unfold modify at 1. unfold bind at 1. unfold get at 1.
    simpl.
    destruct (Nat.eqb (size (data_buffer self)) (S (ds_finished_counter self))).
    + unfold bind at 1. unfold drain, bind at 1, modify at 1.
      pose proof (Feed_drain_loop_ordered fuel
                    (set_draining true
                       (set_ds_finished_counter (S (ds_finished_counter self)) self))
                    eq_refl Hord) as Hdrained.
      unfold Feed_drain_loop in Hdrained.
      destruct (drain_loop fuel _) as [[[]| |] self1]; simpl in Hdrained |- *; try done.
      unfold signal_done, modify. rewrite Feed_run_done by done. simpl.
      destruct Hdrained as (H1 & H2 & H3).
      unfold ordered_buffer.
      change (sent (set_done true (emit SignalDone self1)))
        with (sent (emit SignalDone self1)).
      rewrite sent_emit_SignalDone. done.
    + unfold ret at 1. apply IH; done.
  - (* a data message *)
    unfold Feed_do_work, do_work. rewrite bool_decide_eq_false_2 by done.
    unfold bind at 1. simpl. unfold ParallelBuffer_unframe.
    assert (received DONE DATASOURCE_UNFRAME (Some message :: polls) =
            match DATASOURCE_UNFRAME message with
            | Some ev => ev :: received DONE DATASOURCE_UNFRAME polls
            | None => received DONE DATASOURCE_UNFRAME polls
            end) as Hrecv.
    { unfold received. simpl. rewrite bool_decide_eq_false_2 by done.
      by destruct (DATASOURCE_UNFRAME message). }
    rewrite Hrecv in Hah.
    destruct (DATASOURCE_UNFRAME message) as [ev|]; [|done].
    unfold ret at 1. unfold bind at 1.
    unfold ParallelBuffer_append, bind, get. simpl.
    destruct (data_buffer self !! source_id ev) as [q|] eqn:Hq; [|done].
    simpl.
    destruct (ordered_buffer_append self ev _ q Hord Hah Hq) as [Hord1 Hah1].
    set (self1 := set_received_count _ _) in *.
    destruct (Feed_send_next_cases self1)
      as [[Hrun _]|[Hgate (k & e & rest & Hk & Hmin & Hrun)]];
      unfold Feed_send_next in Hrun; rewrite Hrun.
    + apply IH; done.
    + assert (is_full self1 = true) as Hfull.
      { change (draining self1) with (draining self) in Hgate.
        by rewrite Hdr, orb_false_r in Hgate. }
      apply IH.
      * done.
      * by apply ordered_buffer_pop.
      * by apply ahead_pop.
  - (* the poll timed out *)
    unfold Feed_do_work, do_work, ret at 1. apply IH; done.
Qed.

Lemma Feed_init_ordered (sources : list string) (coming : list event) :
  source_ordered coming →
  draining (Feed_init sources) = false
  ∧ ordered_buffer (Feed_init sources)
  ∧ ahead (Feed_init sources) coming.
Proof.
  intros Hso.
  destruct (Feed_init_from sources ParallelBuffer_init)
    as (_ & _ & Idr & _ & _ & Io & _ & Iempty).
  fold (Feed_init sources) in Idr, Io, Iempty. simpl in Idr, Io.
  assert (∀ k q, data_buffer (Feed_init sources) !! k = Some q → q = []) as Hempty.
  { apply Iempty. intros k q. simpl. by rewrite lookup_empty. }
  assert (sent (Feed_init sources) = []) as Hsent.
  { unfold sent. by rewrite Io. }
  split; [done|]. split.
  - unfold ordered_buffer. rewrite Hsent. split_and!.
    + constructor.
    + intros e k q e' He. by apply elem_of_nil in He.
    + intros k q Hk. apply Hempty in Hk as ->. constructor.
  - unfold ahead. rewrite Hsent. split_and!.
    + intros k q e e' Hk He. apply Hempty in Hk as ->. by apply elem_of_nil in He.
    + intros e e' He. by apply elem_of_nil in He.
    + done.
Qed.

(** C1: the Feed publishes in chronological order.  In every run in which
    each source hands over its events in non-decreasing [dt] order, any two
    consecutive published events [f1], [f2] satisfy [dt f1 ≤ dt f2], under
    the [is_full] gate and while draining alike, and whether the run ends
    normally, by an exception, or inside the loop of [drain]. *)
Theorem Feed_chronological (sources : list string)
    (polls : list (option string)) (fuel : nat) :
  source_ordered (received DONE DATASOURCE_UNFRAME polls) →
  ∀ i f1 f2,
    sent (Feed_run DATASOURCE_UNFRAME FEED_FRAME DONE fuel polls
                   (Feed_init sources)).2 !! i = Some f1 →
    sent (Feed_run DATASOURCE_UNFRAME FEED_FRAME DONE fuel polls
                   (Feed_init sources)).2 !! S i = Some f2 →
    dt f1 ≤ dt f2.
Proof.
  intros Hso i f1 f2 H1 H2.
  destruct (Feed_init_ordered sources _ Hso) as (Hdr & Hord & Hah).
  destruct (Feed_run_ordered fuel polls _ Hdr Hord Hah) as (Hsorted & _).
  by eapply StronglySorted_consecutive.
Qed.

(** ** The finished counter counts sentinels, not sources *)

Lemma Feed_drain_loop_counter fuel self :
  ds_finished_counter (Feed_drain_loop DATASOURCE_UNFRAME FEED_FRAME fuel self).2
  = ds_finished_counter self.
Proof.
  revert self. induction fuel as [|fuel IH]; intros self; [done|].
  unfold Feed_drain_loop. simpl. unfold bind, get. simpl.
  destruct (Nat.ltb 0 (pending_messages self)); [|done].
  destruct (Feed_send_next_cases self)
    as [[Hrun _]|[_ (k & e & rest & _ & _ & Hrun)]];
    unfold Feed_send_next in Hrun; rewrite Hrun; exact (IH _).
Qed.

Lemma Feed_do_work_done_counter fuel self :
  ds_finished_counter
    (Feed_do_work DATASOURCE_UNFRAME FEED_FRAME DONE fuel (Some DONE) self).2
  = S (ds_finished_counter self).
Proof.
  unfold Feed_do_work, do_work. rewrite bool_decide_eq_true_2 by done.
  unfold bind at 1. unfold modify at 1. unfold bind at 1. unfold get at 1.
  simpl.
  destruct (Nat.eqb (size (data_buffer self)) (S (ds_finished_counter self))); [|done].
  unfold bind at 1. unfold drain, bind at 1, modify at 1.
  pose proof (Feed_drain_loop_counter fuel
                (set_draining true
                   (set_ds_finished_counter (S (ds_finished_counter self)) self)))
    as Hc.
  unfold Feed_drain_loop in Hc.
  destruct (drain_loop fuel _) as [[[]| |] self1]; simpl in Hc |- *; done.
Qed.

(** C4, as the code has it: every DONE that [do_work] receives adds exactly
    one to [ds_finished_counter], whoever sent it; nothing latches a source,
    so two deliveries add exactly two. *)
Theorem Feed_counter_counts_every_DONE fuel self :
  let once :=
    (Feed_do_work DATASOURCE_UNFRAME FEED_FRAME DONE fuel (Some DONE) self).2 in
  let twice :=
    (Feed_do_work DATASOURCE_UNFRAME FEED_FRAME DONE fuel (Some DONE) once).2 in
  ds_finished_counter once = S (ds_finished_counter self)
  ∧ ds_finished_counter twice = S (S (ds_finished_counter self)).
Proof.
  intros once twice. subst twice once.
  by rewrite !Feed_do_work_done_counter.
Qed.

End FeedFacts.

(** ** PassthroughTransform *)

(** C3: for a feed message other than the sentinel, [do_work] of the
    passthrough sends exactly one frame, [TRANSFORM_FRAME "PASSTHROUGH"] of
    the message as received, and nothing else changes; when the poll yields
    no message it sends nothing (the read of the unbound [message] raises
    before the [send]). *)
Theorem Passthrough_forwards_payload (DONE : string)
    (TRANSFORM_FRAME : string → string → string) (self : Transform) :
  (∀ message, message ≠ DONE →
     PassthroughTransform_do_work DONE TRANSFORM_FRAME (Some message) self
     = (Val tt, mkTransform (transform_done self)
                  (result_socket self ++ [TRANSFORM_FRAME "PASSTHROUGH" message])))
  ∧ result_socket (PassthroughTransform_do_work DONE TRANSFORM_FRAME None self).2
    = result_socket self
  ∧ PassthroughTransform_do_work DONE TRANSFORM_FRAME None self
    = (Exc (UnboundLocalError "message"), self).
Proof.
  split; [|split].
  - intros message Hne. unfold PassthroughTransform_do_work.
    rewrite bool_decide_eq_false_2 by done. reflexivity.
  - reflexivity.
  - reflexivity.
Qed.

(** ** ComponentHost *)

Section HostFacts.
Context {T Rm : Type}.
Variable DONE : string.
Implicit Type self : ComponentHost T Rm.

Lemma is_timed_out_true cur_time self :
  is_timed_out cur_time self = true ↔
  components self = ∅
  ∨ ∃ source last_dt,
      sync_register self !! source = Some last_dt
      ∧ cur_time - last_dt > timeout self.
Proof.
  unfold is_timed_out.
  destruct (Nat.eqb (size (components self)) 0) eqn:Hsize.
  - apply Nat.eqb_eq, map_size_empty_iff in Hsize. split; auto.
  - apply Nat.eqb_neq in Hsize. rewrite existsb_exists. split.
    + intros ([source last_dt] & Hin & Hlate). right. exists source, last_dt.
      apply list_elem_of_In, elem_of_map_to_list in Hin.
      by apply bool_decide_eq_true in Hlate.
    + intros [Hempty|(source & last_dt & Hin & Hlate)].
      * by apply map_size_empty_iff in Hempty.
      * exists (source, last_dt). split.
        -- by apply list_elem_of_In, elem_of_map_to_list.
        -- by apply bool_decide_eq_true.
Qed.

Lemma loop_cons t ticks self :
  loop DONE (t :: ticks) self =
  if is_timed_out (tick_cur_time t) self then (Val tt, self)
  else
    match loop_body DONE (tick_polled t) (tick_utcnow t) self with
    | (Val _, self') => loop DONE ticks self'
    | (Exc e, self') => (Exc e, self')
    | (OutOfFuel, self') => (OutOfFuel, self')
    end.
Proof.
  simpl. unfold bind at 1, get at 1.
  by destruct (is_timed_out (tick_cur_time t) self).
Qed.

(** A frame with exactly two parts and a status other than DONE: the
    heartbeat is recorded under the id of the frame, then acknowledged. *)
Lemma loop_body_heartbeat msg sync_id status utcnow self :
  str_split ":"%char msg = [sync_id; status] →
  status ≠ DONE →
  loop_body DONE (Some msg) utcnow self =
  (Val tt, mkHost (components self) (<[sync_id := utcnow]> (sync_register self))
                  (timeout self) (feed self) (merge self)
                  (sync_socket self ++ [Recv msg; Reply "ack"])).
Proof.
  intros Hsplit Hne. unfold loop_body. rewrite Hsplit.
  rewrite bool_decide_eq_false_2 by done.
  unfold bind, modify, sync_log, set_sync_register. simpl.
  by rewrite <- app_assoc.
Qed.

(** C10: the key sets of [components] and [sync_register] do not stay equal
    under [loop]: a well-formed frame with a status other than DONE and an
    id that is not registered gets an entry in [sync_register] and none in
    [components]; that entry alone later makes [is_timed_out] true. *)
Theorem heartbeat_of_stranger_is_recorded t ticks msg sync_id status self :
  is_timed_out (tick_cur_time t) self = false →
  tick_polled t = Some msg →
  str_split ":"%char msg = [sync_id; status] →
  status ≠ DONE →
  components self !! sync_id = None →
  ∃ self',
    loop DONE (t :: ticks) self = loop DONE ticks self'
    ∧ components self' = components self
    ∧ sync_register self' = <[sync_id := tick_utcnow t]> (sync_register self)
    ∧ sync_id ∈ dom (sync_register self')
    ∧ (sync_id ∉ dom (components self'))
    ∧ dom (sync_register self') ≠ dom (components self')
    ∧ ∀ cur_time, cur_time - tick_utcnow t > timeout self' →
        is_timed_out cur_time self' = true.
Proof.
  intros Hlive Hpoll Hsplit Hne Hnew.
  eexists. split.
  { rewrite loop_cons, Hlive, Hpoll.
    rewrite (loop_body_heartbeat msg sync_id status _ self Hsplit Hne).
    reflexivity. }
  simpl.
  assert (sync_id ∈ dom (<[sync_id := tick_utcnow t]> (sync_register self))) as Hin.
  { apply elem_of_dom. rewrite lookup_insert_eq. eauto. }
  assert (sync_id ∉ dom (components self)) as Hout.
  { by apply not_elem_of_dom. }
  split_and!; try done.
  - intros Heq. by rewrite Heq in Hin.
  - intros cur_time Hlate. apply is_timed_out_true. right.
    exists sync_id, (tick_utcnow t). simpl. by rewrite lookup_insert_eq.
Qed.

(** A frame that does not have exactly two parts is logged and skipped:
    the iteration ends without a reply. *)
Lemma loop_body_malformed msg utcnow self :
  length (str_split ":"%char msg) ≠ 2%nat →
  loop_body DONE (Some msg) utcnow self = (Val tt, sync_log (Recv msg) self).
Proof.
  intros Hlen. unfold loop_body.
  destruct (str_split ":"%char msg) as [|a [|b [|c parts]]]; done.
Qed.

(** DONE for an id that is not registered: the first [del] raises. *)
Lemma loop_body_done_unregistered msg sync_id utcnow self :
  str_split ":"%char msg = [sync_id; DONE] →
  components self !! sync_id = None →
  loop_body DONE (Some msg) utcnow self =
  (Exc (KeyError sync_id), sync_log (Recv msg) self).
Proof.
  intros Hsplit Hnew. unfold loop_body. rewrite Hsplit.
  rewrite bool_decide_eq_true_2 by done.
  unfold bind, modify, unregister_component, bind, get. simpl.
  by rewrite Hnew.
Qed.

(** The six paths through the body of the loop. *)
Lemma loop_body_cases polled utcnow self :
  (polled = None ∧ loop_body DONE polled utcnow self = (Val tt, self))
  ∨ (∃ msg, polled = Some msg
       ∧ length (str_split ":"%char msg) ≠ 2%nat
       ∧ loop_body DONE polled utcnow self = (Val tt, sync_log (Recv msg) self))
  ∨ (∃ msg id status, polled = Some msg
       ∧ str_split ":"%char msg = [id; status] ∧ status ≠ DONE
       ∧ loop_body DONE polled utcnow self =
         (Val tt, mkHost (components self) (<[id := utcnow]> (sync_register self))
                         (timeout self) (feed self) (merge self)
                         (sync_socket self ++ [Recv msg; Reply "ack"])))
  ∨ (∃ msg id, polled = Some msg
       ∧ str_split ":"%char msg = [id; DONE] ∧ components self !! id = None
       ∧ loop_body DONE polled utcnow self =
         (Exc (KeyError id), sync_log (Recv msg) self))
  ∨ (∃ msg id, polled = Some msg
       ∧ str_split ":"%char msg = [id; DONE]
       ∧ is_Some (components self !! id) ∧ sync_register self !! id = None
       ∧ loop_body DONE polled utcnow self =
         (Exc (KeyError id),
          mkHost (delete id (components self)) (sync_register self)
                 (timeout self) (feed self) (merge self)
                 (sync_socket self ++ [Recv msg])))
  ∨ (∃ msg id, polled = Some msg
       ∧ str_split ":"%char msg = [id; DONE]
       ∧ is_Some (components self !! id) ∧ is_Some (sync_register self !! id)
       ∧ loop_body DONE polled utcnow self =
         (Val tt,
          mkHost (delete id (components self)) (delete id (sync_register self))
                 (timeout self) (feed self) (merge self)
                 (sync_socket self ++ [Recv msg; Reply "ack"]))).
Proof.
  destruct polled as [msg|]; [|by left].
  destruct (decide (length (str_split ":"%char msg) = 2%nat)) as [Hlen|Hlen].
  2: { right; left. exists msg. split_and!; [done | done |].
       by apply loop_body_malformed. }
  destruct (str_split ":"%char msg) as [|id [|status [|? ?]]] eqn:Hsplit; try done.
  destruct (decide (status = DONE)) as [->|Hne].
  2: { right; right; left. exists msg, id, status. split_and!; try done.
       by apply (loop_body_heartbeat msg id status). }
  destruct (components self !! id) as [c|] eqn:Hc.
  2: { right; right; right; left. exists msg, id. split_and!; try done.
       by apply loop_body_done_unregistered. }
  unfold loop_body. rewrite Hsplit, bool_decide_eq_true_2 by done.
  unfold unregister_component, bind, modify, get. simpl. rewrite Hc. simpl.
  destruct (sync_register self !! id) as [last|] eqn:Hs; simpl.
  - right; right; right; right; right. exists msg, id.
    split_and!; try done; [eauto..|].
    unfold sync_log, set_sync_register, set_components. simpl.
    by rewrite <- app_assoc.
  - right; right; right; right; left. exists msg, id.
    split_and!; try done; eauto.
Qed.

(** What an iteration that raises has received: DONE for an id that one of
    the two registries does not hold. *)
Lemma loop_body_raises polled utcnow self e self' :
  loop_body DONE polled utcnow self = (Exc e, self') →
  ∃ msg id,
    polled = Some msg ∧ str_split ":"%char msg = [id; DONE] ∧ e = KeyError id
    ∧ (components self !! id = None ∧ self' = sync_log (Recv msg) self
       ∨ is_Some (components self !! id) ∧ sync_register self !! id = None).
Proof.
  intros Hbody.
  destruct (loop_body_cases polled utcnow self)
    as [[_ H]|[(msg & _ & _ & H)|[(msg & id & status & _ & _ & _ & H)
       |[(msg & id & Hp & Hs & Hc & H)|[(msg & id & Hp & Hs & Hc & Hr & H)
       |(msg & id & _ & _ & _ & _ & H)]]]]]; rewrite H in Hbody;
    try discriminate; injection Hbody as <- <-; exists msg, id;
    split_and!; try done; [by left | by right].
Qed.

(** The body has no loop of its own: it returns or raises. *)
Lemma loop_body_in_fuel polled utcnow self :
  (loop_body DONE polled utcnow self).1 ≠ OutOfFuel.
Proof.
  destruct (loop_body_cases polled utcnow self)
    as [[_ ->]|[(msg & _ & _ & ->)|[(msg & id & status & _ & _ & _ & ->)
       |[(msg & id & _ & _ & _ & ->)|[(msg & id & _ & _ & _ & _ & ->)
       |(msg & id & _ & _ & _ & _ & ->)]]]]]; done.
Qed.

Lemma loop_top_cons t pre self :
  loop_top DONE (t :: pre) self =
  if is_timed_out (tick_cur_time t) self then None
  else match loop_body DONE (tick_polled t) (tick_utcnow t) self with
       | (Val _, self') => loop_top DONE pre self'
       | _ => None
       end.
Proof. reflexivity. Qed.

(** From the top of an iteration that [loop] reaches, it goes on as a
    [loop] started there. *)
Lemma loop_from_top pre rest self s :
  loop_top DONE pre self = Some s →
  loop DONE (pre ++ rest) self = loop DONE rest s.
Proof.
  revert self. induction pre as [|t pre IH]; intros self Htop.
  - by injection Htop as ->.
  - rewrite loop_top_cons in Htop. rewrite <- app_comm_cons, loop_cons.
    destruct (is_timed_out (tick_cur_time t) self); [done|].
    destruct (loop_body DONE (tick_polled t) (tick_utcnow t) self)
      as [[[]|e|] self1]; [by apply IH | done | done].
Qed.

(** How [loop] ends: it returns at the top of an iteration where
    [is_timed_out] holds; or the body of an iteration raises; or the ticks
    run out with the loop still going. *)
Lemma loop_outcome ticks self :
  match loop DONE ticks self with
  | (Val _, self') =>
      ∃ pre t post,
        ticks = pre ++ t :: post ∧ loop_top DONE pre self = Some self'
        ∧ is_timed_out (tick_cur_time t) self' = true
  | (Exc e, self') =>
      ∃ pre t post s,
        ticks = pre ++ t :: post ∧ loop_top DONE pre self = Some s
        ∧ is_timed_out (tick_cur_time t) s = false
        ∧ loop_body DONE (tick_polled t) (tick_utcnow t) s = (Exc e, self')
  | (OutOfFuel, self') => loop_top DONE ticks self = Some self'
  end.
Proof.
  revert self. induction ticks as [|t ticks IH]; intros self; [done|].
  rewrite loop_cons, loop_top_cons.
  destruct (is_timed_out (tick_cur_time t) self) eqn:Hto.
  { by exists [], t, ticks. }
  pose proof (loop_body_in_fuel (tick_polled t) (tick_utcnow t) self) as Hfuel.
  destruct (loop_body DONE (tick_polled t) (tick_utcnow t) self)
    as [[[]|e|] self1] eqn:Hbody; [| |done].
  - specialize (IH self1).
    destruct (loop DONE ticks self1) as [[[]|e|] self']; [| |done].
    + destruct IH as (pre & t' & post & -> & Htop & Hout).
      exists (t :: pre), t', post. split_and!; [done| |done].
      by rewrite loop_top_cons, Hto, Hbody.
    + destruct IH as (pre & t' & post & s & -> & Htop & Hlive & Hraise).
      exists (t :: pre), t', post, s. split_and!; [done| |done|done].
      by rewrite loop_top_cons, Hto, Hbody.
  - by exists [], t, ticks, self.
Qed.

(** C9, amended: [is_timed_out] answers true exactly when the registry of
    components is empty or some entry of [sync_register] is older than
    [timeout], which [__init__] sets to five seconds.  [loop] returns exactly
    when that holds at the top of an iteration it reaches, in the state of
    that moment.  It can also end while neither condition holds: by the
    [KeyError] that the body raises on a DONE frame whose id one of the two
    registries does not hold.  Otherwise it is still running. *)
Theorem loop_returns_exactly_when_timed_out cur_time self :
  (is_timed_out cur_time self = true ↔
   components self = ∅
   ∨ ∃ source last_dt,
       sync_register self !! source = Some last_dt
       ∧ cur_time - last_dt > timeout self)
  ∧ (∀ t_feed t_merge t_passthrough,
       timeout (ComponentHost_init (T := T) (Rm := Rm) t_feed t_merge t_passthrough)
       = 5000000)
  ∧ (∀ ticks self',
       loop DONE ticks self = (Val tt, self') ↔
       ∃ pre t post,
         ticks = pre ++ t :: post ∧ loop_top DONE pre self = Some self'
         ∧ is_timed_out (tick_cur_time t) self' = true)
  ∧ (∀ ticks e self',
       loop DONE ticks self = (Exc e, self') →
       ∃ pre t post s msg id,
         ticks = pre ++ t :: post ∧ loop_top DONE pre self = Some s
         ∧ is_timed_out (tick_cur_time t) s = false
         ∧ tick_polled t = Some msg ∧ str_split ":"%char msg = [id; DONE]
         ∧ e = KeyError id
         ∧ (components s !! id = None ∨ sync_register s !! id = None))
  ∧ (∀ ticks self',
       loop DONE ticks self = (OutOfFuel, self') →
       loop_top DONE ticks self = Some self').
Proof.
  split; [apply is_timed_out_true|]. split; [done|]. split_and!.
  - intros ticks self'. split.
    + intros Hrun. pose proof (loop_outcome ticks self) as Hout.
      by rewrite Hrun in Hout.
    + intros (pre & t & post & -> & Htop & Hout).
      by rewrite (loop_from_top pre (t :: post) self self' Htop), loop_cons, Hout.
  - intros ticks e self' Hrun. pose proof (loop_outcome ticks self) as Hout.
    rewrite Hrun in Hout. destruct Hout as (pre & t & post & s & -> & Htop & Hlive & Hraise).
    apply loop_body_raises in Hraise as (msg & id & Hp & Hs & -> & Hwhy).
    exists pre, t, post, s, msg, id. split_and!; try done.
    destruct Hwhy as [[Hc _]|[_ Hr]]; [by left | by right].
  - intros ticks self' Hrun. pose proof (loop_outcome ticks self) as Hout.
    by rewrite Hrun in Hout.
Qed.

End HostFacts.

(** C5, at a malformed frame: the host receives [garbage], which has one
    part, sends no reply, and polls again; the next frame is received with
    no [ack] between the two.  A well-formed heartbeat is acknowledged. *)
Theorem malformed_frame_gets_no_ack :
  (∀ utcnow,
     loop_body "DONE" (Some "garbage") utcnow sample_host
     = (Val tt, sync_log (Recv "garbage") sample_host))
  ∧ sync_socket
      (loop "DONE" [mkTick 1 (Some "garbage") 1;
                    mkTick 2 (Some "FEED:HEARTBEAT") 2] sample_host).2
    = [Recv "garbage"; Recv "FEED:HEARTBEAT"; Reply "ack"].
Proof.
  split.
  - intros utcnow. by apply loop_body_malformed.
  - vm_compute. reflexivity.
Qed.

(** C6, at a premature DONE: [ghost] is not a key of [components]; on
    [ghost:DONE] the host leaves both registries as they were, but
    [unregister_component] raises [KeyError], which ends [loop] before any
    reply is sent. *)
Theorem premature_DONE_raises_KeyError :
  components sample_host !! "ghost" = None
  ∧ loop "DONE" [mkTick 1 (Some "ghost:DONE") 1; mkTick 2 None 2] sample_host
    = (Exc (KeyError "ghost"), sync_log (Recv "ghost:DONE") sample_host).
Proof.
  assert (components sample_host !! "ghost" = None)
    as Hnew by (vm_compute; reflexivity).
  split; [exact Hnew|].
  rewrite loop_cons.
  replace (is_timed_out _ _) with false by (vm_compute; reflexivity).
  simpl tick_polled. simpl tick_utcnow.
  by rewrite (loop_body_done_unregistered "DONE" "ghost:DONE" "ghost").
Qed.

(** ** The Merge *)

(** While the gate is open, [next] of the Merge pops the Passthrough queue
    without looking at its length. *)
Lemma MergedParallelBuffer_next_empty {T Rm : Type}
    (get_PASSTHROUGH : T → Rm) (merge : Rm → T → Rm) (self : ParallelBuffer T Rm) :
  is_full self || draining self = true →
  data_buffer self !! "PASSTHROUGH" = Some [] →
  MergedParallelBuffer_next get_PASSTHROUGH merge self = (Exc IndexError, self).
Proof.
  intros Hgate Hempty. unfold MergedParallelBuffer_next, bind, get.
  rewrite Hgate. simpl. by rewrite Hempty.
Qed.

(** C7, at a Merge that drains with a result of [X] queued and none of the
    Passthrough: the run receives one result of [X], then DONE twice; the
    second DONE starts the drain, [pending_messages] is 1, and [next] pops
    the empty Passthrough queue, which raises [IndexError]. *)
Theorem Merge_drain_pops_empty_PASSTHROUGH :
  ∃ self,
    Merge_run fst (λ ev, [ev]) sample_merge sample_transform_unframe
              sample_merge_frame "DONE" 5
              [Some "X:1"; Some "DONE"; Some "DONE"] sample_Merge
    = (Exc IndexError, self)
    ∧ draining self = true
    ∧ pending_messages self = 1%nat
    ∧ data_buffer self !! "PASSTHROUGH" = Some []
    ∧ MergedParallelBuffer_next (λ ev, [ev]) sample_merge self
      = (Exc IndexError, self).
Proof.
  eexists. split; [vm_compute; reflexivity|].
  split_and!; [vm_compute; reflexivity ..|].
  apply MergedParallelBuffer_next_empty; vm_compute; reflexivity.
Qed.

(** * The statements at concrete runs *)

Lemma Feed_chronological_witness :
  source_ordered (received "DONE" sample_unframe sample_polls)
  ∧ ∀ i f1 f2,
      sent (Feed_run sample_unframe sample_frame "DONE" 5 sample_polls
                     (Feed_init ["A"; "B"])).2 !! i = Some f1 →
      sent (Feed_run sample_unframe sample_frame "DONE" 5 sample_polls
                     (Feed_init ["A"; "B"])).2 !! S i = Some f2 →
      dt f1 ≤ dt f2.
Proof.
  assert (source_ordered (received "DONE" sample_unframe sample_polls)) as Hso.
  { cbn. repeat (split || constructor); cbn; intros; first [discriminate | lia]. }
  split; [exact Hso|].
  exact (Feed_chronological sample_unframe sample_frame "DONE" ["A"; "B"]
           sample_polls 5 Hso).
Defined.

Example sample_run_sent :
  dt <$> sent (Feed_run sample_unframe sample_frame "DONE" 5 sample_polls
                        (Feed_init ["A"; "B"])).2 = [1; 2; 3; 4].
Proof. vm_compute. reflexivity. Qed.

Lemma Feed_emits_all_then_done_witness :
  decodable "DONE" sample_unframe (list_to_set ["A"; "B"]) sample_pre
  ∧ S (count_done "DONE" sample_pre) = size (data_buffer (Feed_init ["A"; "B"]))
  ∧ (length (received "DONE" sample_unframe sample_pre) < 5)%nat
  ∧ ∃ self' evs,
      Feed_run sample_unframe sample_frame "DONE" 5 (sample_pre ++ [Some "DONE"])
               (Feed_init ["A"; "B"]) = (Val tt, self')
      ∧ out self' = (Send <$> evs) ++ [SignalDone]
      ∧ length evs = 4%nat
      ∧ sent_count self' = 4%nat
      ∧ received_count self' = 4%nat
      ∧ done self' = true.
Proof.
  assert (decodable "DONE" sample_unframe (list_to_set ["A"; "B"]) sample_pre) as Hdec.
  { intros message Hin Hne. unfold sample_pre in Hin.
    repeat (apply elem_of_cons in Hin as [Heq|Hin];
            [first [ discriminate Heq
                   | injection Heq as ->; by destruct Hne
                   | injection Heq as ->; eexists; split; [reflexivity|];
                     apply elem_of_list_to_set; simpl; repeat constructor ]
            |]).
    by apply elem_of_nil in Hin. }
  assert (S (count_done "DONE" sample_pre) = size (data_buffer (Feed_init ["A"; "B"])))
    as Hcnt by (vm_compute; reflexivity).
  assert (length (received "DONE" sample_unframe sample_pre) < 5)%nat
    as Hfuel by (vm_compute; lia).
  split_and!; [exact Hdec | exact Hcnt | exact Hfuel |].
  destruct (Feed_emits_all_then_done sample_unframe sample_frame "DONE"
              ["A"; "B"] sample_pre 5 Hdec Hcnt Hfuel)
    as (self' & evs & Hrun & Hout & Hlen & Hsent & Hrecv & _ & Hdone & _).
  exists self', evs. split_and!; done.
Defined.

Lemma Feed_drain_terminates_witness :
  (pending_messages sample_backlog < 3)%nat
  ∧ ∃ self' evs,
      Feed_drain sample_unframe sample_frame 3 sample_backlog = (Val tt, self')
      ∧ pending_messages self' = 0%nat
      ∧ length evs = pending_messages sample_backlog
      ∧ out self' = out sample_backlog ++ (Send <$> evs).
Proof.
  assert (pending_messages sample_backlog < 3)%nat as Hlt by (vm_compute; lia).
  split; [exact Hlt|].
  exact (proj1 (proj2 (Feed_drain_terminates sample_unframe sample_frame "DONE"
                         sample_backlog 3 Hlt))).
Defined.

Example sample_backlog_pending : pending_messages sample_backlog = 2%nat.
Proof. vm_compute. reflexivity. Qed.

(** C4, as stated, fails: a Feed of three sources that receives DONE twice
    has counted two, not at most one. *)
Lemma double_DONE_counts_twice :
  ¬ (ds_finished_counter
       (Feed_run sample_unframe sample_frame "DONE" 5 [Some "DONE"; Some "DONE"]
                 (Feed_init ["A"; "B"; "C"])).2
     ≤ ds_finished_counter (Feed_init ["A"; "B"; "C"]) + 1)%nat.
Proof. vm_compute. lia. Qed.

Lemma Passthrough_forwards_payload_witness :
  "A." ≠ "DONE"
  ∧ PassthroughTransform_do_work "DONE" (λ name value, String.append name value)
      (Some "A.") (mkTransform false [])
    = (Val tt, mkTransform false ["PASSTHROUGHA."]).
Proof.
  assert ("A." ≠ "DONE") as Hne by discriminate.
  split; [exact Hne|].
  exact (proj1 (Passthrough_forwards_payload "DONE"
                  (λ name value, String.append name value) (mkTransform false []))
               "A." Hne).
Defined.

Lemma heartbeat_of_stranger_is_recorded_witness :
  is_timed_out 1 sample_host = false
  ∧ str_split ":"%char "ghost:HEARTBEAT" = ["ghost"; "HEARTBEAT"]
  ∧ "HEARTBEAT" ≠ "DONE"
  ∧ components sample_host !! "ghost" = None
  ∧ dom (sync_register sample_host)
    = dom (components sample_host)
  ∧ ∃ self',
      loop "DONE" [mkTick 1 (Some "ghost:HEARTBEAT") 1]
           sample_host
      = loop "DONE" [] self'
      ∧ components self' = components sample_host
      ∧ sync_register self' = <["ghost" := 1]> (sync_register sample_host)
      ∧ "ghost" ∈ dom (sync_register self')
      ∧ ("ghost" ∉ dom (components self'))
      ∧ dom (sync_register self') ≠ dom (components self')
      ∧ ∀ cur_time, cur_time - 1 > timeout self' →
          is_timed_out cur_time self' = true.
Proof.
  assert (is_timed_out 1 sample_host = false)
    as Hlive by (vm_compute; reflexivity).
  assert (str_split ":"%char "ghost:HEARTBEAT" = ["ghost"; "HEARTBEAT"])
    as Hsplit by reflexivity.
  assert ("HEARTBEAT" ≠ "DONE") as Hne by discriminate.
  assert (components sample_host !! "ghost" = None)
    as Hnew by (vm_compute; reflexivity).
  split_and!; [exact Hlive | exact Hsplit | exact Hne | exact Hnew
              | vm_compute; reflexivity |].
  exact (heartbeat_of_stranger_is_recorded "DONE"
           (mkTick 1 (Some "ghost:HEARTBEAT") 1) [] "ghost:HEARTBEAT" "ghost"
           "HEARTBEAT" sample_host Hlive eq_refl Hsplit Hne Hnew).
Defined.

(** The threshold is strict: an entry exactly [timeout] old does not time
    the host out, one microsecond more does. *)
Example sample_host_times_out :
  is_timed_out 5000000 sample_host = false
  ∧ is_timed_out 5000001 sample_host = true.
Proof. split; vm_compute; reflexivity. Qed.

(** C9, as stated, fails for [loop]: a freshly built host that receives DONE
    for an id it does not know ends its loop in the first iteration, by a
    [KeyError], although its registry of components is not empty and no
    entry of [sync_register] is older than the timeout. *)
Lemma loop_ends_without_time_out :
  loop "DONE" [mkTick 1 (Some "ghost:DONE") 1] sample_host
  = (Exc (KeyError "ghost"), sync_log (Recv "ghost:DONE") sample_host)
  ∧ ¬ (components sample_host = ∅
       ∨ ∃ source last_dt,
           sync_register sample_host !! source = Some last_dt
           ∧ 1 - last_dt > timeout sample_host).
Proof.
  split; [vm_compute; reflexivity|].
  intros Hcond. apply is_timed_out_true in Hcond. vm_compute in Hcond.
  discriminate.
Qed.

Lemma loop_returns_exactly_when_timed_out_witness :
  ∃ self',
    loop "DONE" [mkTick 1 (Some "FEED:HEARTBEAT") 1; mkTick 5000001 None 0]
         sample_host = (Val tt, self')
    ∧ sync_register self' !! "FEED" = Some 1
    ∧ sync_register self' !! "MERGE" = Some 0.
Proof.
  set (self' := (loop_body "DONE" (Some "FEED:HEARTBEAT") 1 sample_host).2).
  exists self'. split; [|split; vm_compute; reflexivity].
  apply (proj1 (proj2 (proj2 (loop_returns_exactly_when_timed_out "DONE" 1
                                sample_host)))).
  exists [mkTick 1 (Some "FEED:HEARTBEAT") 1], (mkTick 5000001 None 0), [].
  split_and!; [reflexivity | vm_compute; reflexivity | vm_compute; reflexivity].
Defined.

(** * Further properties of the module *)

#[local] Set Warnings "-clear-no-such-hyp".

(** ** Frames of the sync channel *)

Lemma str_split_nonempty sep msg : str_split sep msg ≠ [].
Proof.
  destruct msg as [|c msg]; simpl; [done|].
  case_bool_decide; [done|]. by destruct (str_split sep msg).
Qed.

(** Splitting what was joined with the separator gives the parts of both
    sides. *)
Lemma str_split_join sep a b :
  str_split sep (String.append a (String sep b)) = str_split sep a ++ str_split sep b.
Proof.
  induction a as [|c a IH]; simpl.
  - by rewrite bool_decide_eq_true_2.
  - case_bool_decide; [by rewrite IH|].
    rewrite IH. pose proof (str_split_nonempty sep a) as Hne.
    by destruct (str_split sep a).
Qed.

Lemma str_split_sync_frame id status :
  colon_free id → colon_free status →
  str_split ":"%char (sync_frame id status) = [id; status].
Proof.
  unfold colon_free, sync_frame. intros Hid Hst.
  by rewrite str_split_join, Hid, Hst.
Qed.

(** ** The registry of the host *)

Section HostRegistry.
Context {T Rm : Type}.
Variable DONE : string.
Implicit Type self : ComponentHost T Rm.

Lemma register_component_fields self c t :
  components (register_component self (c, t)) = <[get_id c := c]> (components self)
  ∧ sync_register (register_component self (c, t))
    = <[get_id c := t]> (sync_register self)
  ∧ timeout (register_component self (c, t)) = timeout self
  ∧ sync_socket (register_component self (c, t)) = sync_socket self
  ∧ data_buffer (feed (register_component self (c, t)))
    = (if is_kind IsDataSource c
       then <[get_id c := []]> (data_buffer (feed self))
       else data_buffer (feed self))
  ∧ data_buffer (merge (register_component self (c, t)))
    = (if is_kind IsBaseTransform c
       then <[get_id c := []]> (data_buffer (merge self))
       else data_buffer (merge self)).
Proof. unfold register_component, is_kind. by destruct (kind c). Qed.

Lemma register_components_snoc entries entry self :
  register_components (entries ++ [entry]) self
  = register_component (register_components entries self) entry.
Proof. unfold register_components. by rewrite foldl_app. Qed.

(** X1: [register_components] keeps the two registries on the same keys:
    if [components] and [sync_register] have the same key set before, they
    have the same key set after, namely the old keys and the ids of the
    registered components. *)
Theorem register_components_keeps_keysets entries self :
  dom (components self) = dom (sync_register self) →
  dom (components (register_components entries self))
  = dom (sync_register (register_components entries self))
  ∧ dom (components (register_components entries self))
    = dom (components self) ∪ list_to_set ((λ entry, get_id entry.1) <$> entries).
Proof.
  intros Heq. induction entries as [|[c t] entries IH] using rev_ind.
  - simpl. split; [done|]. by rewrite union_empty_r_L.
  - rewrite register_components_snoc.
    destruct (register_component_fields (register_components entries self) c t)
      as (Hc & Hs & _). rewrite Hc, Hs, !dom_insert_L.
    destruct IH as [IH1 IH2]. rewrite <- IH1, IH2. split; [done|].
    rewrite fmap_app, list_to_set_app_L. simpl.
    rewrite union_empty_r_L. set_solver.
Qed.

(** X2: [register_components] gives every registered data source an empty
    queue in the Feed and every registered transform an empty queue in the
    Merge, and adds no other key to either buffer. *)
Theorem register_components_adds_sources entries self :
  dom (data_buffer (feed (register_components entries self)))
  = dom (data_buffer (feed self)) ∪ list_to_set (ids_of_kind IsDataSource entries)
  ∧ dom (data_buffer (merge (register_components entries self)))
    = dom (data_buffer (merge self)) ∪ list_to_set (ids_of_kind IsBaseTransform entries)
  ∧ (∀ id, id ∈ ids_of_kind IsDataSource entries →
       data_buffer (feed (register_components entries self)) !! id = Some [])
  ∧ (∀ id, id ∈ ids_of_kind IsBaseTransform entries →
       data_buffer (merge (register_components entries self)) !! id = Some []).
Proof.
  induction entries as [|[c t] entries IH] using rev_ind.
  - simpl. rewrite !union_empty_r_L. split_and!; try done;
      intros id Hin; by apply elem_of_nil in Hin.
  - rewrite register_components_snoc.
    destruct (register_component_fields (register_components entries self) c t)
      as (_ & _ & _ & _ & Hf & Hm). rewrite Hf, Hm.
    destruct IH as (IHf & IHm & IHfq & IHmq).
    unfold ids_of_kind in *. rewrite !omap_app. simpl.
    split_and!.
    + destruct (is_kind IsDataSource c); simpl.
      * rewrite dom_insert_L, IHf, list_to_set_app_L. simpl. set_solver.
      * by rewrite app_nil_r.
    + destruct (is_kind IsBaseTransform c); simpl.
      * rewrite dom_insert_L, IHm, list_to_set_app_L. simpl. set_solver.
      * by rewrite app_nil_r.
    + intros id Hin. destruct (is_kind IsDataSource c); simpl in *.
      * destruct (decide (get_id c = id)) as [->|Hne];
          [by rewrite lookup_insert_eq|].
        rewrite lookup_insert_ne by done. apply IHfq.
        apply elem_of_app in Hin as [Hin|Hin]; [done|].
        by apply list_elem_of_singleton in Hin.
      * rewrite app_nil_r in Hin. by apply IHfq.
    + intros id Hin. destruct (is_kind IsBaseTransform c); simpl in *.
      * destruct (decide (get_id c = id)) as [->|Hne];
          [by rewrite lookup_insert_eq|].
        rewrite lookup_insert_ne by done. apply IHmq.
        apply elem_of_app in Hin as [Hin|Hin]; [done|].
        by apply list_elem_of_singleton in Hin.
      * rewrite app_nil_r in Hin. by apply IHmq.
Qed.

End HostRegistry.

(** ** The loop of the host *)

Section HostLoop.
Context {T Rm : Type}.
Variable DONE : string.
Implicit Type self : ComponentHost T Rm.

Lemma reply_state_snoc log ev :
  reply_state (log ++ [ev]) = reply_step (reply_state log) ev.
Proof. unfold reply_state. by rewrite foldl_app. Qed.

Lemma loop_body_tracked polled utcnow self :
  dom (components self) ⊆ dom (sync_register self) →
  dom (components (loop_body DONE polled utcnow self).2)
    ⊆ dom (sync_register (loop_body DONE polled utcnow self).2)
  ∧ (loop_body DONE polled utcnow self).1 ≠ OutOfFuel
  ∧ ∀ e, (loop_body DONE polled utcnow self).1 = Exc e →
      ∃ id, e = KeyError id
            ∧ components (loop_body DONE polled utcnow self).2 !! id = None.
Proof.
  intros Hsub.
  destruct (loop_body_cases DONE polled utcnow self)
    as [[_ ->]|[(msg & _ & _ & ->)|[(msg & id & status & _ & _ & _ & ->)
       |[(msg & id & _ & _ & Hc & ->)|[(msg & id & _ & _ & Hc & Hs & ->)
       |(msg & id & _ & _ & Hc & Hs & ->)]]]]]; simpl.
  - done.
  - done.
  - split_and!; [|done|done]. rewrite dom_insert_L. set_solver.
  - split_and!; [done|done|]. intros e [= <-]. eauto.
  - exfalso. apply (not_elem_of_dom (sync_register self) id) in Hs.
    by apply Hs, Hsub, elem_of_dom.
  - split_and!; [|done|done]. rewrite !dom_delete_L. set_solver.
Qed.

Lemma loop_top_tracked pre self s :
  dom (components self) ⊆ dom (sync_register self) →
  loop_top DONE pre self = Some s →
  dom (components s) ⊆ dom (sync_register s).
Proof.
  revert self. induction pre as [|t pre IH]; intros self Hsub Htop.
  - by injection Htop as <-.
  - rewrite loop_top_cons in Htop.
    destruct (is_timed_out (tick_cur_time t) self); [done|].
    destruct (loop_body_tracked (tick_polled t) (tick_utcnow t) self Hsub)
      as (Hsub' & _).
    destruct (loop_body DONE (tick_polled t) (tick_utcnow t) self)
      as [[[]|e|] self1]; [by apply (IH self1) | done | done].
Qed.

(** On a host that tracks every registered component, unregistering a
    registered id deletes both entries: neither [del] raises. *)
Lemma unregister_component_tracked id self :
  dom (components self) ⊆ dom (sync_register self) →
  is_Some (components self !! id) →
  unregister_component id self
  = (Val tt, set_sync_register (delete id (sync_register self))
               (set_components (delete id (components self)) self)).
Proof.
  intros Hsub Hc.
  assert (is_Some (sync_register self !! id)) as [last Hs]
    by (by apply elem_of_dom, Hsub, elem_of_dom).
  destruct Hc as [c Hc].
  unfold unregister_component, bind, modify, get. simpl. rewrite Hc. simpl.
  by rewrite Hs.
Qed.

(** X3: on a host that starts with every registered component tracked,
    [dom components ⊆ dom sync_register], that holds at the top of every
    iteration [loop] reaches and in the state it ends in; so in every
    iteration [unregister_component] of a registered id deletes both entries
    and returns: its second [del] never raises.  If [loop] ends with an
    exception, it is the [KeyError] of the first [del], for a DONE frame whose
    id was not registered when the frame arrived, and nothing has been
    deleted. *)
Theorem loop_keeps_components_tracked ticks self :
  dom (components self) ⊆ dom (sync_register self) →
  (∀ pre s,
     loop_top DONE pre self = Some s →
     dom (components s) ⊆ dom (sync_register s)
     ∧ ∀ id, is_Some (components s !! id) →
         unregister_component id s
         = (Val tt, set_sync_register (delete id (sync_register s))
                      (set_components (delete id (components s)) s)))
  ∧ dom (components (loop DONE ticks self).2)
      ⊆ dom (sync_register (loop DONE ticks self).2)
  ∧ ∀ e self',
      loop DONE ticks self = (Exc e, self') →
      ∃ pre t post s msg id,
        ticks = pre ++ t :: post ∧ loop_top DONE pre self = Some s
        ∧ tick_polled t = Some msg ∧ str_split ":"%char msg = [id; DONE]
        ∧ components s !! id = None
        ∧ e = KeyError id
        ∧ self' = sync_log (Recv msg) s.
Proof.
  intros Hsub.
  assert (∀ e self', loop DONE ticks self = (Exc e, self') →
            ∃ pre t post s msg id,
              ticks = pre ++ t :: post ∧ loop_top DONE pre self = Some s
              ∧ tick_polled t = Some msg ∧ str_split ":"%char msg = [id; DONE]
              ∧ components s !! id = None
              ∧ e = KeyError id
              ∧ self' = sync_log (Recv msg) s) as Hexc.
  { intros e self' Hrun. pose proof (loop_outcome DONE ticks self) as Hout.
    rewrite Hrun in Hout.
    destruct Hout as (pre & t & post & s & -> & Htop & _ & Hraise).
    pose proof (loop_top_tracked pre self s Hsub Htop) as Hsub'.
    apply (loop_body_raises DONE) in Hraise as (msg & id & Hp & Hs & -> & Hwhy).
    destruct Hwhy as [[Hc ->]|[Hc Hr]].
    - by exists pre, t, post, s, msg, id.
    - exfalso. apply (not_elem_of_dom (sync_register s) id) in Hr.
      by apply Hr, Hsub', elem_of_dom. }
  split_and!; [| |exact Hexc].
  - intros pre s Htop.
    pose proof (loop_top_tracked pre self s Hsub Htop) as Hsub'.
    split; [done|]. intros id Hc. by apply unregister_component_tracked.
  - pose proof (loop_outcome DONE ticks self) as Hout.
    destruct (loop DONE ticks self) as [[[]|e|] self'] eqn:Hrun; simpl.
    + destruct Hout as (pre & t & post & _ & Htop & _).
      by apply (loop_top_tracked pre self).
    + destruct (Hexc e self' eq_refl)
        as (pre & t & post & s & msg & id & _ & Htop & _ & _ & _ & _ & ->).
      exact (loop_top_tracked pre self s Hsub Htop).
    + by apply (loop_top_tracked ticks self).
Qed.

Lemma reply_state_request log msg :
  is_Some (reply_state log) → reply_state (log ++ [Recv msg]) = Some true.
Proof. intros [b Hb]. rewrite reply_state_snoc, Hb. by destruct b. Qed.

Lemma reply_state_request_ack log msg :
  is_Some (reply_state log) →
  reply_state (log ++ [Recv msg; Reply "ack"]) = Some false.
Proof.
  intros [b Hb]. unfold reply_state in *. rewrite foldl_app, Hb. by destruct b.
Qed.

Lemma loop_body_replies polled utcnow self :
  is_Some (reply_state (sync_socket self)) →
  is_Some (reply_state (sync_socket (loop_body DONE polled utcnow self).2)).
Proof.
  intros Hlog.
  destruct (loop_body_cases DONE polled utcnow self)
    as [[_ ->]|[(msg & _ & _ & ->)|[(msg & id & status & _ & _ & _ & ->)
       |[(msg & id & _ & _ & Hc & ->)|[(msg & id & _ & _ & Hc & Hs & ->)
       |(msg & id & _ & _ & Hc & Hs & ->)]]]]]; simpl;
    rewrite ?reply_state_request, ?reply_state_request_ack by done; eauto.
Qed.

(** X4: whatever the host receives, it never sends anything but [ack], and
    an [ack] only as the answer to the frame it received last: the log of
    the sync socket stays a sequence of requests, each followed by at most
    one [ack]. *)
Theorem loop_replies_only_to_requests ticks self :
  is_Some (reply_state (sync_socket self)) →
  is_Some (reply_state (sync_socket (loop DONE ticks self).2)).
Proof.
  revert self. induction ticks as [|t ticks IH]; intros self Hlog; [done|].
  rewrite loop_cons. destruct (is_timed_out (tick_cur_time t) self); [done|].
  pose proof (loop_body_replies (tick_polled t) (tick_utcnow t) self Hlog) as Hlog'.
  destruct (loop_body DONE (tick_polled t) (tick_utcnow t) self)
    as [[[]|e|] self']; simpl in *; [by apply IH | done | done].
Qed.

End HostLoop.

Section HostFrames.
Context {T Rm : Type}.
Variable DONE : string.
Implicit Type self : ComponentHost T Rm.

Lemma loop_body_done_registered id utcnow self :
  colon_free id → colon_free DONE →
  is_Some (components self !! id) → is_Some (sync_register self !! id) →
  loop_body DONE (Some (sync_frame id DONE)) utcnow self =
  (Val tt, mkHost (delete id (components self)) (delete id (sync_register self))
                  (timeout self) (feed self) (merge self)
                  (sync_socket self ++ [Recv (sync_frame id DONE); Reply "ack"])).
Proof.
  intros Hid Hdone [c Hc] [last Hs].
  pose proof (str_split_sync_frame id DONE Hid Hdone) as Hsplit.
  destruct (loop_body_cases DONE (Some (sync_frame id DONE)) utcnow self)
    as [[? _]|[(msg & [= <-] & Hlen & _)|[(msg & id' & status & [= <-] & Hsp & Hne & _)
       |[(msg & id' & [= <-] & Hsp & Hc' & _)|[(msg & id' & [= <-] & Hsp & _ & Hs' & _)
       |(msg & id' & [= <-] & Hsp & _ & _ & ->)]]]]]; try done.
  - by rewrite Hsplit in Hlen.
  - rewrite Hsplit in Hsp. by injection Hsp as <- <-.
  - rewrite Hsplit in Hsp. injection Hsp as <-. by rewrite Hc in Hc'.
  - rewrite Hsplit in Hsp. injection Hsp as <-. by rewrite Hs in Hs'.
  - rewrite Hsplit in Hsp. by injection Hsp as <-.
Qed.

(** X5: a frame [<id>:<status>] whose id and status hold no colon is
    answered by exactly one [ack], unless it is a DONE for an id that is not
    in both registries; a status other than DONE records the heartbeat, DONE
    removes the id from both registries; nothing else of the host changes. *)
Theorem well_formed_frame_is_acknowledged id status utcnow self :
  colon_free id → colon_free status →
  (status = DONE →
   is_Some (components self !! id) ∧ is_Some (sync_register self !! id)) →
  ∃ self',
    loop_body DONE (Some (sync_frame id status)) utcnow self = (Val tt, self')
    ∧ sync_socket self'
      = sync_socket self ++ [Recv (sync_frame id status); Reply "ack"]
    ∧ (status ≠ DONE →
       components self' = components self
       ∧ sync_register self' = <[id := utcnow]> (sync_register self))
    ∧ (status = DONE →
       components self' = delete id (components self)
       ∧ sync_register self' = delete id (sync_register self))
    ∧ timeout self' = timeout self
    ∧ feed self' = feed self
    ∧ merge self' = merge self.
Proof.
  intros Hid Hst Hreg.
  destruct (decide (status = DONE)) as [->|Hne].
  - destruct (Hreg eq_refl) as [Hc Hs]. eexists. split.
    { by apply loop_body_done_registered. }
    simpl. split_and!; done.
  - eexists. split.
    { apply (loop_body_heartbeat DONE _ id status); [|done].
      by apply str_split_sync_frame. }
    simpl. split_and!; done.
Qed.

(** X6: registering a component under a fresh id and then receiving its
    DONE leaves [components] and [sync_register] as they were before the
    registration, while the queue that the registration added to the Feed
    or to the Merge stays. *)
Theorem register_then_DONE_restores_registry c t utcnow self :
  colon_free (get_id c) → colon_free DONE →
  components self !! get_id c = None →
  sync_register self !! get_id c = None →
  ∃ self',
    loop_body DONE (Some (sync_frame (get_id c) DONE)) utcnow
              (register_component self (c, t)) = (Val tt, self')
    ∧ components self' = components self
    ∧ sync_register self' = sync_register self
    ∧ feed self' = feed (register_component self (c, t))
    ∧ merge self' = merge (register_component self (c, t)).
Proof.
  intros Hid Hdone Hc Hs.
  destruct (register_component_fields self c t) as (Hc1 & Hs1 & _).
  eexists. split.
  { apply loop_body_done_registered; [done | done | |].
    - rewrite Hc1, lookup_insert_eq. eauto.
    - rewrite Hs1, lookup_insert_eq. eauto. }
  cbn [components sync_register feed merge].
  rewrite Hc1, Hs1, !delete_insert_id by done. done.
Qed.

(** X7: when every registered component reports DONE, one frame each and
    none timing out on the way, the host acknowledges each frame, its
    registry of components ends empty, and [loop] returns normally at the
    top of the next iteration. *)
Theorem loop_ends_when_all_are_DONE ticks ids t_last rest self :
  Forall2 (λ t id, tick_polled t = Some (sync_frame id DONE)) ticks ids →
  NoDup ids →
  Forall colon_free ids → colon_free DONE →
  dom (components self) = list_to_set ids →
  dom (components self) ⊆ dom (sync_register self) →
  (∀ t id last, t ∈ ticks → sync_register self !! id = Some last →
     tick_cur_time t - last ≤ timeout self) →
  ∃ self',
    loop DONE (ticks ++ t_last :: rest) self = (Val tt, self')
    ∧ components self' = ∅
    ∧ dom (sync_register self') = dom (sync_register self) ∖ list_to_set ids
    ∧ sync_socket self'
      = sync_socket self
        ++ concat ((λ id, [Recv (sync_frame id DONE); Reply "ack"]) <$> ids).
Proof.
  intros Hticks. revert self.
  induction Hticks as [|t id ticks ids Hpoll Hticks IH];
    intros self Hnodup Hfree Hdone Hdom Hsub Hlive.
  - exists self. apply dom_empty_iff_L in Hdom.
    change ([] ++ t_last :: rest) with (t_last :: rest).
    rewrite loop_cons.
    replace (is_timed_out (tick_cur_time t_last) self) with true.
    2: { symmetry. apply is_timed_out_true. by left. }
    simpl. rewrite app_nil_r, difference_empty_L. done.
  - apply NoDup_cons in Hnodup as [Hfresh Hnodup].
    apply Forall_cons in Hfree as [Hid Hfree].
    assert (id ∈ dom (components self)) as Hin by (rewrite Hdom; set_solver).
    assert (is_timed_out (tick_cur_time t) self = false) as Hnot.
    { destruct (is_timed_out (tick_cur_time t) self) eqn:Hto; [|done].
      apply is_timed_out_true in Hto as [Hempty|(source & last & Hs & Hlate)].
      - rewrite Hempty, dom_empty_L in Hin. by apply not_elem_of_empty in Hin.
      - assert (t ∈ t :: ticks) as Ht by (apply elem_of_cons; by left).
        specialize (Hlive t source last Ht Hs). lia. }
    rewrite <- app_comm_cons, loop_cons, Hnot, Hpoll.
    rewrite loop_body_done_registered;
      [| done | done | by apply elem_of_dom | by apply elem_of_dom, Hsub].
    edestruct (IH (mkHost (delete id (components self))
                          (delete id (sync_register self)) (timeout self)
                          (feed self) (merge self)
                          (sync_socket self ++ [Recv (sync_frame id DONE); Reply "ack"])))
      as (self' & Hrun & Hc & Hs & Hlog); try done.
    + simpl. rewrite dom_delete_L, Hdom. set_solver.
    + simpl. rewrite !dom_delete_L. set_solver.
    + simpl. intros t' id' last Hin' Hlook.
      apply lookup_delete_Some in Hlook as [_ Hlook].
      eapply Hlive; [apply elem_of_cons; by right | done].
    + exists self'. split; [done|]. split; [done|]. simpl in *. split.
      * rewrite Hs, dom_delete_L. set_solver.
      * rewrite Hlog. by rewrite <- app_assoc.
Qed.

(** X19: a heartbeat keeps the host running: when the registry is not
    empty and every other entry of [sync_register] is at most [timeout] old,
    the host is not timed out for as long as the heartbeat it just recorded
    is at most [timeout] old, however stale the entry of that id was. *)
Theorem heartbeat_keeps_host_running id status utcnow cur_time self :
  colon_free id → colon_free status → status ≠ DONE →
  components self ≠ ∅ →
  (∀ id' last, id' ≠ id → sync_register self !! id' = Some last →
     cur_time - last ≤ timeout self) →
  cur_time - utcnow ≤ timeout self →
  is_timed_out cur_time
    (loop_body DONE (Some (sync_frame id status)) utcnow self).2 = false.
Proof.
  intros Hid Hst Hne Hcomp Hothers Hfresh.
  rewrite (loop_body_heartbeat DONE _ id status utcnow self
             (str_split_sync_frame id status Hid Hst) Hne).
  destruct (is_timed_out _ _) eqn:Hto; [|done].
  apply is_timed_out_true in Hto as [Hempty|(source & last & Hs & Hlate)];
    simpl in *; [done|].
  rewrite lookup_insert in Hs. case_decide as Heq.
  - injection Hs as <-. lia.
  - specialize (Hothers source last (not_eq_sym Heq) Hs). lia.
Qed.

End HostFrames.

(** ** What the Feed holds and what it has published *)

Lemma concat_Permutation_proper {A} (l1 l2 : list (list A)) :
  l1 ≡ₚ l2 → concat l1 ≡ₚ concat l2.
Proof.
  induction 1 as [|x l1 l2 _ IH|x y l|l1 l2 l3 _ IH1 _ IH2]; simpl.
  - done.
  - by rewrite IH.
  - rewrite !app_assoc. by rewrite (Permutation_app_comm y x).
  - by rewrite IH1.
Qed.

Section BufferedFacts.
Context {E R : Type}.
Implicit Type self : ParallelBuffer E R.
Implicit Type m : gmap string (list E).

Lemma pending_messages_buffered self :
  pending_messages self = length (buffered self).
Proof.
  rewrite pending_messages_sum. unfold buffered.
  induction (map_to_list (data_buffer self)) as [|kv l IH]; csimpl; [done|].
  rewrite length_app. by rewrite IH.
Qed.

(** Replacing the queue of one key moves the difference and nothing else. *)
Lemma buffered_replace m k q q' :
  m !! k = Some q →
  concat ((λ kv, kv.2) <$> map_to_list m)
    ≡ₚ q ++ concat ((λ kv, kv.2) <$> map_to_list (delete k m))
  ∧ concat ((λ kv, kv.2) <$> map_to_list (<[k := q']> m))
    ≡ₚ q' ++ concat ((λ kv, kv.2) <$> map_to_list (delete k m)).
Proof.
  intros Hk. split.
  - rewrite <- (concat_Permutation_proper _ _
                  (fmap_Permutation (λ kv : string * list E, kv.2) _ _
                     (map_to_list_delete m k q Hk))).
    done.
  - rewrite <- (insert_delete_eq m k q').
    rewrite (concat_Permutation_proper _ _
               (fmap_Permutation (λ kv : string * list E, kv.2) _ _
                  (map_to_list_insert (delete k m) k q' (lookup_delete_eq m k)))).
    done.
Qed.

End BufferedFacts.

Section FeedAccounts.
Variable DATASOURCE_UNFRAME : string → option event.
Variable FEED_FRAME : event → string.
Variable DONE : string.
Implicit Type self : ParallelBuffer event event.

Lemma publishes_nothing self : publishes self self [].
Proof.
  unfold publishes. rewrite !app_nil_r. simpl.
  split_and!; try done; lia.
Qed.

Lemma publishes_trans self1 self2 self3 pub1 pub2 :
  publishes self1 self2 pub1 → publishes self2 self3 pub2 →
  publishes self1 self3 (pub1 ++ pub2).
Proof.
  intros (S1 & O1 & C1 & P1 & R1 & D1 & N1 & F1 & M1)
         (S2 & O2 & C2 & P2 & R2 & D2 & N2 & F2 & M2).
  unfold publishes. split_and!; try congruence.
  - rewrite S2, S1. by rewrite <- app_assoc.
  - rewrite O2, O1, fmap_app. by rewrite <- app_assoc.
  - rewrite C2, C1, length_app. lia.
  - rewrite <- P1, <- P2. by rewrite <- app_assoc.
Qed.

(** [send_next] publishes at most one event, and returns normally. *)
Lemma Feed_send_next_publishes self :
  ∃ self' pub,
    Feed_send_next DATASOURCE_UNFRAME FEED_FRAME self = (Val tt, self')
    ∧ publishes self self' pub
    ∧ (length pub ≤ 1)%nat
    ∧ (pub = [] → self' = self)
    ∧ (∀ ev, ev ∈ pub → is_full self || draining self = true).
Proof.
  destruct (Feed_send_next_cases DATASOURCE_UNFRAME FEED_FRAME self)
    as [[Hrun _]|[Hgate (k & e & rest & Hk & Hmin & Hrun)]].
  - exists self, []. split_and!; try done.
    + apply publishes_nothing.
    + simpl. lia.
    + intros ev Hin. by apply elem_of_nil in Hin.
  - eexists _, [e]. split; [exact Hrun|]. split_and!; try done.
    unfold publishes.
    change (sent (mkPB _ _ _ _ _ _ (out self ++ [Send e])))
      with (sent (emit (Send e) self)).
    rewrite sent_emit_Send. simpl. split_and!; try done.
    + lia.
    + unfold buffered. simpl.
      destruct (buffered_replace (data_buffer self) k (e :: rest) rest Hk)
        as [H1 H2]. rewrite H1, H2. done.
    + apply dom_insert_lookup_L. by rewrite Hk.
Qed.

(** The loop of [drain], whatever its fuel: it publishes from the queues,
    never raises, and leaves them empty when it ends normally. *)
Lemma Feed_drain_loop_publishes fuel self :
  ∃ r self' pub,
    Feed_drain_loop DATASOURCE_UNFRAME FEED_FRAME fuel self = (r, self')
    ∧ publishes self self' pub
    ∧ (r = Val tt ∧ pending_messages self' = 0%nat ∨ r = OutOfFuel).
Proof.
  revert self. induction fuel as [|fuel IH]; intros self.
  - exists OutOfFuel, self, []. split_and!; [done | apply publishes_nothing | by right].
  - unfold Feed_drain_loop. simpl. unfold bind at 1, get at 1.
    destruct (Nat.ltb 0 (pending_messages self)) eqn:Hpos.
    + destruct (Feed_send_next_publishes self) as (self1 & pub1 & Hrun1 & Hp1 & _).
      unfold bind. unfold Feed_send_next in Hrun1. rewrite Hrun1.
      destruct (IH self1) as (r & self2 & pub2 & Hrun2 & Hp2 & Hr).
      unfold Feed_drain_loop in Hrun2. rewrite Hrun2.
      exists r, self2, (pub1 ++ pub2). split_and!; [done | | done].
      by eapply publishes_trans.
    + apply Nat.ltb_ge in Hpos.
      exists (Val tt), self, []. split_and!; [done | apply publishes_nothing |].
      left. split; [done|lia].
Qed.

(** One call of [do_work] on a Feed that is not done: what it queues, what
    it publishes, and how it ends. *)
Lemma Feed_do_work_accounts fuel polled self :
  done self = false →
  ∃ r self' pub,
    Feed_do_work DATASOURCE_UNFRAME FEED_FRAME DONE fuel polled self = (r, self')
    ∧ sent self' = sent self ++ pub
    ∧ sent_count self' = (sent_count self + length pub)%nat
    ∧ out self' = out self ++ (Send <$> pub)
                    ++ (if done self' then [SignalDone] else [])
    ∧ pub ++ buffered self'
      ≡ₚ buffered self ++ appended DONE DATASOURCE_UNFRAME polled self
    ∧ received_count self'
      = (received_count self
         + length (appended DONE DATASOURCE_UNFRAME polled self))%nat
    ∧ dom (data_buffer self') = dom (data_buffer self)
    ∧ (done self' = true →
       pending_messages self' = 0%nat ∧ draining self' = true
       ∧ ds_finished_counter self' = size (data_buffer self'))
    ∧ (r = Val tt
         ∧ appended DONE DATASOURCE_UNFRAME polled self
           = received DONE DATASOURCE_UNFRAME [polled]
       ∨ self' = self
         ∧ (∃ e, r = Exc e)
         ∧ (∃ message, polled = Some message ∧ message ≠ DONE
              ∧ appended DONE DATASOURCE_UNFRAME polled self = [])
       ∨ r = OutOfFuel ∧ polled = Some DONE).
Proof.
  intros Hdone.
  assert (∀ s : ParallelBuffer event event,
            done s = false → out s ++ (Send <$> []) ++ (if done s then [SignalDone] else [])
                           = out s) as Hout0.
  { intros s ->. by rewrite !app_nil_r. }
  assert (received DONE DATASOURCE_UNFRAME [Some DONE] = []) as Hrecv_done.
  { unfold received. simpl. by rewrite bool_decide_eq_true_2. }
  destruct polled as [message|]; [destruct (decide (message = DONE)) as [->|Hne]|].
  - (* the sentinel *)
    unfold appended. rewrite bool_decide_eq_true_2 by done.
    unfold Feed_do_work, do_work. rewrite bool_decide_eq_true_2 by done.
    unfold bind at 1. unfold modify at 1. unfold bind at 1. unfold get at 1.
    simpl.
    destruct (Nat.eqb (size (data_buffer self)) (S (ds_finished_counter self)))
      eqn:Hsize.
    + apply Nat.eqb_eq in Hsize.
      unfold bind at 1. unfold drain, bind at 1, modify at 1.
      destruct (Feed_drain_loop_publishes fuel
                  (set_draining true
                     (set_ds_finished_counter (S (ds_finished_counter self)) self)))
        as (r1 & s1 & pub & Hrun & Hpub & Hr).
      unfold Feed_drain_loop in Hrun. rewrite Hrun.
      destruct Hpub as (S1 & O1 & C1 & P1 & R1 & D1 & N1 & F1 & M1).
      simpl in S1, O1, C1, P1, R1, D1, N1, F1, M1.
      change (sent (set_draining _ _)) with (sent self) in S1.
      change (buffered (set_draining _ _)) with (buffered self) in P1.
      destruct Hr as [[-> Hz]| ->].
      * unfold signal_done, modify.
        exists (Val tt), (set_done true (emit SignalDone s1)), pub.
        change (sent (set_done true (emit SignalDone s1)))
          with (sent (emit SignalDone s1)).
        rewrite sent_emit_SignalDone.
        change (buffered (set_done true (emit SignalDone s1))) with (buffered s1).
        change (pending_messages (set_done true (emit SignalDone s1)))
          with (pending_messages s1).
        simpl. rewrite app_nil_r.
        split_and!; try done; try lia.
        -- rewrite O1. by rewrite <- app_assoc.
        -- intros _. split_and!; [done | done |].
           rewrite F1, <- Hsize, <- !(size_dom (D := gset string)), M1. done.
        -- left. split; [done|]. symmetry. apply Hrecv_done.
      * exists OutOfFuel, s1, pub. rewrite N1, Hdone, !app_nil_r.
        split_and!; try done; try lia.
        right; right. done.
    + exists (Val tt), (set_ds_finished_counter (S (ds_finished_counter self)) self), [].
      change (sent (set_ds_finished_counter _ _)) with (sent self).
      change (buffered (set_ds_finished_counter _ _)) with (buffered self).
      simpl. rewrite Hdone, !app_nil_r.
      split_and!; try done; try lia. left. split; [done|]. symmetry. apply Hrecv_done.
  - (* a data message *)
    unfold appended. rewrite bool_decide_eq_false_2 by done.
    unfold Feed_do_work, do_work. rewrite bool_decide_eq_false_2 by done.
    unfold bind at 1. simpl. unfold ParallelBuffer_unframe.
    destruct (DATASOURCE_UNFRAME message) as [ev|] eqn:Hu.
    2: { exists (Exc DecodeError), self, []. simpl. rewrite Hout0 by done.
         rewrite !app_nil_r.
         split_and!; try done; try lia; try congruence.
         right; left. split_and!; eauto. }
    unfold ret at 1. unfold bind at 1.
    unfold ParallelBuffer_append, bind, get. simpl.
    destruct (data_buffer self !! source_id ev) as [q|] eqn:Hq.
    2: { exists (Exc (KeyError (source_id ev))), self, []. simpl.
         rewrite Hout0 by done. rewrite !app_nil_r.
         split_and!; try done; try lia; try congruence.
         right; left. split_and!; eauto. }
    simpl. set (self1 := set_received_count _ _).
    destruct (Feed_send_next_publishes self1)
      as (self2 & pub & Hrun & Hpub & _).
    unfold Feed_send_next in Hrun. rewrite Hrun.
    destruct Hpub as (S1 & O1 & C1 & P1 & R1 & D1 & N1 & F1 & M1).
    change (sent self1) with (sent self) in S1.
    change (out self1) with (out self) in O1.
    change (sent_count self1) with (sent_count self) in C1.
    change (received_count self1) with (S (received_count self)) in R1.
    change (done self1) with (done self) in N1.
    exists (Val tt), self2, pub. rewrite N1, Hdone, app_nil_r.
    split_and!; try done.
    + rewrite P1. unfold buffered. subst self1. simpl.
      destruct (buffered_replace (data_buffer self) (source_id ev) q (q ++ [ev]) Hq)
        as [H1 H2]. rewrite H1, H2.
      rewrite <- !app_assoc. apply Permutation_app_head, Permutation_app_comm.
    + rewrite R1. simpl. lia.
    + rewrite M1. subst self1. simpl. apply dom_insert_lookup_L. by rewrite Hq.
    + left. split; [done|]. unfold received. simpl.
      by rewrite bool_decide_eq_false_2 by done.
  - (* the poll timed out *)
    exists (Val tt), self, []. simpl. rewrite Hout0 by done. rewrite !app_nil_r.
    split_and!; try done; try lia; try congruence. by left.
Qed.

Lemma Feed_init_accounted (sources : list string) :
  accounted (Feed_init sources) ∧ done (Feed_init sources) = false
  ∧ sent (Feed_init sources) = [] ∧ buffered (Feed_init sources) = [].
Proof.
  destruct (Feed_init_from sources ParallelBuffer_init)
    as (Is & Ir & Idr & Ic & Id & Io & Idom & Iempty).
  fold (Feed_init sources) in Is, Ir, Idr, Ic, Id, Io, Idom, Iempty.
  simpl in Is, Ir, Idr, Ic, Id, Io.
  assert (pending_messages (Feed_init sources) = 0%nat) as Ip.
  { apply pending_messages_zero. apply Iempty. intros k q. simpl.
    by rewrite lookup_empty. }
  assert (sent (Feed_init sources) = []) as Hsent by (unfold sent; by rewrite Io).
  assert (buffered (Feed_init sources) = []) as Hbuf.
  { apply length_zero_iff_nil. by rewrite <- pending_messages_buffered. }
  split_and!; try done.
  unfold accounted. rewrite Is, Ir, Ip, Id, Io, Hsent. done.
Qed.

Lemma Feed_run_accounted_from fuel polls self :
  accounted self →
  accounted (Feed_run DATASOURCE_UNFRAME FEED_FRAME DONE fuel polls self).2.
Proof.
  revert self. induction polls as [|p polls IH]; intros self Hacc; [done|].
  destruct (done self) eqn:Hdone; [by rewrite Feed_run_done|].
  rewrite Feed_run_cons by done.
  destruct (Feed_do_work_accounts fuel p self Hdone)
    as (r & self' & pub & Hrun & S1 & C1 & O1 & P1 & R1 & M1 & D1 & _).
  rewrite Hrun.
  assert (accounted self') as Hacc'.
  { destruct Hacc as (A1 & A2 & A3 & _). rewrite Hdone, app_nil_r in A3.
    unfold accounted. split_and!; [| | |done].
    - apply Permutation_length in P1. rewrite !length_app in P1.
      rewrite !pending_messages_buffered in *. lia.
    - rewrite C1, S1, length_app. lia.
    - rewrite O1, S1, A3, fmap_app. by rewrite <- app_assoc. }
  destruct r as [[]| |]; simpl; [by apply IH | done | done].
Qed.

(** X8: in every state a run leaves a Feed in, however the run ends, the
    counters agree with the queues and the log: [received_count] is
    [sent_count] plus [pending_messages()], [sent_count] is the number of
    events published, and the Feed has signalled done at most once, after its
    last publication, with empty queues and [ds_finished_counter] equal to
    the number of sources. *)
Theorem Feed_run_accounted (sources : list string)
    (polls : list (option string)) (fuel : nat) :
  accounted (Feed_run DATASOURCE_UNFRAME FEED_FRAME DONE fuel polls
                      (Feed_init sources)).2.
Proof. apply Feed_run_accounted_from, Feed_init_accounted. Qed.

Lemma received_cons p polls :
  received DONE DATASOURCE_UNFRAME (p :: polls)
  = received DONE DATASOURCE_UNFRAME [p] ++ received DONE DATASOURCE_UNFRAME polls.
Proof. unfold received. by rewrite <- omap_app. Qed.

Lemma Feed_run_conserves_from fuel polls self hist :
  sent self ++ buffered self ≡ₚ hist →
  received_count self = length hist →
  ∃ pre,
    pre `prefix_of` received DONE DATASOURCE_UNFRAME polls
    ∧ sent (Feed_run DATASOURCE_UNFRAME FEED_FRAME DONE fuel polls self).2
      ++ buffered (Feed_run DATASOURCE_UNFRAME FEED_FRAME DONE fuel polls self).2
      ≡ₚ hist ++ pre
    ∧ received_count (Feed_run DATASOURCE_UNFRAME FEED_FRAME DONE fuel polls self).2
      = (length hist + length pre)%nat.
Proof.
  revert self hist. induction polls as [|p polls IH]; intros self hist Hperm Hcnt.
  { exists []. rewrite app_nil_r. simpl. split_and!; [apply prefix_nil | done | lia]. }
  destruct (done self) eqn:Hdone.
  { rewrite Feed_run_done by done. exists []. rewrite app_nil_r. simpl.
    split_and!; [apply prefix_nil | done | lia]. }
  rewrite Feed_run_cons by done.
  destruct (Feed_do_work_accounts fuel p self Hdone)
    as (r & self' & pub & Hrun & S1 & C1 & O1 & P1 & R1 & M1 & D1 & Hr).
  rewrite Hrun.
  assert (sent self' ++ buffered self'
          ≡ₚ hist ++ appended DONE DATASOURCE_UNFRAME p self) as Hperm'.
  { rewrite S1, <- app_assoc, P1, app_assoc. by rewrite Hperm. }
  destruct Hr as [[-> Happ]|[(-> & (e & ->) & (message & _ & _ & Happ))|[-> ->]]].
  - destruct (IH self' (hist ++ appended DONE DATASOURCE_UNFRAME p self))
      as (pre & Hpre & Hfin & Hlen); [done | rewrite length_app; lia |].
    exists (appended DONE DATASOURCE_UNFRAME p self ++ pre).
    rewrite received_cons, <- Happ. split_and!.
    + by apply prefix_app.
    + by rewrite app_assoc.
    + rewrite Hlen, !length_app. lia.
  - exists []. rewrite app_nil_r. simpl. split_and!; [apply prefix_nil | done | lia].
  - exists []. simpl in *. rewrite bool_decide_eq_true_2 in Hperm', R1 by done.
    split_and!; [apply prefix_nil | done | simpl in *; lia].
Qed.

(** X9: a Feed neither loses, nor duplicates, nor invents an event: after
    any run, however it ends, the events published together with the events
    still queued are, up to order, the first [received_count] events of the
    data messages of the run. *)
Theorem Feed_run_conserves_events (sources : list string)
    (polls : list (option string)) (fuel : nat) :
  sent (Feed_run DATASOURCE_UNFRAME FEED_FRAME DONE fuel polls (Feed_init sources)).2
  ++ buffered (Feed_run DATASOURCE_UNFRAME FEED_FRAME DONE fuel polls
                        (Feed_init sources)).2
  ≡ₚ take (received_count (Feed_run DATASOURCE_UNFRAME FEED_FRAME DONE fuel polls
                                    (Feed_init sources)).2)
          (received DONE DATASOURCE_UNFRAME polls).
Proof.
  destruct (Feed_init_accounted sources) as ((Hrc & _) & _ & Hsent & Hbuf).
  destruct (Feed_run_conserves_from fuel polls (Feed_init sources) [])
    as (pre & [rest Hpre] & Hperm & Hcnt).
  { by rewrite Hsent, Hbuf. }
  { rewrite Hrc, pending_messages_buffered, Hbuf.
    destruct (Feed_init_from sources ParallelBuffer_init) as (Is & _).
    fold (Feed_init sources) in Is. by rewrite Is. }
  rewrite Hcnt, Hpre. simpl. by rewrite take_app_length.
Qed.

(** A data message that does not decode, or whose source has no queue,
    makes [do_work] raise before it writes anything. *)
Lemma Feed_do_work_data_rejected fuel message self :
  message ≠ DONE →
  (DATASOURCE_UNFRAME message = None →
   Feed_do_work DATASOURCE_UNFRAME FEED_FRAME DONE fuel (Some message) self
   = (Exc DecodeError, self))
  ∧ (∀ ev, DATASOURCE_UNFRAME message = Some ev →
       data_buffer self !! source_id ev = None →
       Feed_do_work DATASOURCE_UNFRAME FEED_FRAME DONE fuel (Some message) self
       = (Exc (KeyError (source_id ev)), self)).
Proof.
  intros Hne. split.
  - intros Hu. unfold Feed_do_work, do_work. rewrite bool_decide_eq_false_2 by done.
    unfold bind at 1. simpl. unfold ParallelBuffer_unframe. by rewrite Hu.
  - intros ev Hu Hq.
    unfold Feed_do_work, do_work. rewrite bool_decide_eq_false_2 by done.
    unfold bind at 1. simpl. unfold ParallelBuffer_unframe. rewrite Hu.
    unfold ret at 1. unfold bind at 1.
    unfold ParallelBuffer_append, bind, get. simpl. by rewrite Hq.
Qed.

(** X10: a data message that the Feed cannot take changes nothing: if the
    codec rejects it, [do_work] raises with the Feed as it was; if its source
    has no queue, [append] raises [KeyError] with the Feed as it was; in
    every other case the event is counted as received and [do_work] returns
    normally. *)
Theorem Feed_rejected_message_changes_nothing fuel message self :
  message ≠ DONE →
  match DATASOURCE_UNFRAME message with
  | None =>
      Feed_do_work DATASOURCE_UNFRAME FEED_FRAME DONE fuel (Some message) self
      = (Exc DecodeError, self)
  | Some ev =>
      match data_buffer self !! source_id ev with
      | None =>
          Feed_do_work DATASOURCE_UNFRAME FEED_FRAME DONE fuel (Some message) self
          = (Exc (KeyError (source_id ev)), self)
      | Some q =>
          ∃ self',
            Feed_do_work DATASOURCE_UNFRAME FEED_FRAME DONE fuel (Some message) self
            = (Val tt, self')
            ∧ received_count self' = S (received_count self)
            ∧ (sent_count self' + pending_messages self')%nat
              = S (sent_count self + pending_messages self)
      end
  end.
Proof.
  intros Hne.
  destruct (Feed_do_work_data_rejected fuel message self Hne) as [Hdecode Hkey].
  destruct (DATASOURCE_UNFRAME message) as [ev|] eqn:Hu; [|by apply Hdecode].
  destruct (data_buffer self !! source_id ev) as [q|] eqn:Hq; [|by apply Hkey].
  destruct (Feed_do_work_data DATASOURCE_UNFRAME FEED_FRAME DONE fuel self
              message ev q Hne Hu Hq)
    as (self' & Hrun & Hr & _ & _ & _ & _ & Hcases).
  exists self'. split_and!; [done | done |].
  destruct Hcases as [(-> & _ & ->)|(ev' & -> & _ & ->)]; lia.
Qed.

Lemma Feed_do_work_DONE_early fuel self :
  size (data_buffer self) ≠ S (ds_finished_counter self) →
  Feed_do_work DATASOURCE_UNFRAME FEED_FRAME DONE fuel (Some DONE) self
  = (Val tt, set_ds_finished_counter (S (ds_finished_counter self)) self).
Proof.
  intros Hneq. unfold Feed_do_work, do_work.
  rewrite bool_decide_eq_true_2 by done.
  unfold bind at 1. unfold modify at 1. unfold bind at 1. unfold get at 1.
  simpl. apply Nat.eqb_neq in Hneq. by rewrite Hneq.
Qed.

Lemma Feed_do_work_queues fuel self message ev q :
  message ≠ DONE →
  DATASOURCE_UNFRAME message = Some ev →
  data_buffer self !! source_id ev = Some q →
  Feed_do_work DATASOURCE_UNFRAME FEED_FRAME DONE fuel (Some message) self
  = Feed_send_next DATASOURCE_UNFRAME FEED_FRAME
      (set_received_count (S (received_count self))
         (set_data_buffer (<[source_id ev := q ++ [ev]]> (data_buffer self)) self)).
Proof.
  intros Hne Hu Hq.
  unfold Feed_do_work, do_work. rewrite bool_decide_eq_false_2 by done.
  unfold bind at 1. simpl. unfold ParallelBuffer_unframe. rewrite Hu.
  unfold ret at 1. unfold bind at 1.
  unfold ParallelBuffer_append, bind, get. simpl. by rewrite Hq.
Qed.

Lemma Feed_run_without_sources fuel polls self :
  data_buffer self = ∅ → done self = false →
  data_buffer (Feed_run DATASOURCE_UNFRAME FEED_FRAME DONE fuel polls self).2 = ∅
  ∧ done (Feed_run DATASOURCE_UNFRAME FEED_FRAME DONE fuel polls self).2 = false
  ∧ out (Feed_run DATASOURCE_UNFRAME FEED_FRAME DONE fuel polls self).2 = out self
  ∧ received_count (Feed_run DATASOURCE_UNFRAME FEED_FRAME DONE fuel polls self).2
    = received_count self
  ∧ (Feed_run DATASOURCE_UNFRAME FEED_FRAME DONE fuel polls self).1 ≠ OutOfFuel.
Proof.
  revert self. induction polls as [|p polls IH]; intros self Hempty Hdone; [done|].
  rewrite Feed_run_cons by done.
  destruct p as [message|]; [destruct (decide (message = DONE)) as [->|Hne]|].
  - rewrite Feed_do_work_DONE_early by (by rewrite Hempty, map_size_empty).
    by apply (IH (set_ds_finished_counter (S (ds_finished_counter self)) self)).
  - destruct (Feed_do_work_data_rejected fuel message self Hne) as [Hdecode Hkey].
    destruct (DATASOURCE_UNFRAME message) as [ev|] eqn:Hu.
    + rewrite (Hkey ev eq_refl) by (by rewrite Hempty, lookup_empty). done.
    + by rewrite Hdecode.
  - unfold Feed_do_work, do_work, ret at 1. by apply IH.
Qed.

(** X11: a Feed without sources never drains and never signals that it is
    done: [ds_finished_counter] is compared with [len(data_buffer) = 0] only
    after it was incremented.  Whatever it receives, it publishes nothing,
    counts nothing as received, and every data message raises. *)
Theorem Feed_without_sources_never_done (polls : list (option string)) (fuel : nat) :
  done (Feed_run DATASOURCE_UNFRAME FEED_FRAME DONE fuel polls (Feed_init [])).2
  = false
  ∧ out (Feed_run DATASOURCE_UNFRAME FEED_FRAME DONE fuel polls (Feed_init [])).2
    = []
  ∧ received_count (Feed_run DATASOURCE_UNFRAME FEED_FRAME DONE fuel polls
                             (Feed_init [])).2 = 0%nat
  ∧ ∀ message ev,
      message ≠ DONE → DATASOURCE_UNFRAME message = Some ev →
      (Feed_run DATASOURCE_UNFRAME FEED_FRAME DONE fuel (Some message :: polls)
                (Feed_init [])).1 = Exc (KeyError (source_id ev)).
Proof.
  destruct (Feed_run_without_sources fuel polls (Feed_init []))
    as (_ & Hd & Ho & Hr & _); [done | done |].
  split_and!; [done | done | done |].
  intros message ev Hne Hu. rewrite Feed_run_cons by done.
  destruct (Feed_do_work_data_rejected fuel message (Feed_init []) Hne)
    as [_ Hkey].
  by rewrite (Hkey ev Hu (lookup_empty _)).
Qed.

Lemma Feed_run_waits fuel polls self s :
  data_buffer self !! s = Some [] →
  draining self = false → done self = false →
  (∀ ev, ev ∈ received DONE DATASOURCE_UNFRAME polls → source_id ev ≠ s) →
  (ds_finished_counter self + count_done DONE polls < size (data_buffer self))%nat →
  out (Feed_run DATASOURCE_UNFRAME FEED_FRAME DONE fuel polls self).2 = out self
  ∧ sent_count (Feed_run DATASOURCE_UNFRAME FEED_FRAME DONE fuel polls self).2
    = sent_count self
  ∧ done (Feed_run DATASOURCE_UNFRAME FEED_FRAME DONE fuel polls self).2 = false
  ∧ (Feed_run DATASOURCE_UNFRAME FEED_FRAME DONE fuel polls self).1 ≠ OutOfFuel.
Proof.
  revert self. induction polls as [|p polls IH];
    intros self Hs Hdr Hdone Hother Hcnt; [done|].
  rewrite Feed_run_cons by done.
  destruct p as [message|]; [destruct (decide (message = DONE)) as [->|Hne]|].
  - rewrite count_done_cons_done in Hcnt.
    rewrite Feed_do_work_DONE_early by lia.
    apply (IH (set_ds_finished_counter (S (ds_finished_counter self)) self));
      try done.
    + intros ev Hin. apply Hother. rewrite received_cons. apply elem_of_app. by right.
    + simpl. lia.
  - rewrite count_done_cons_other in Hcnt by congruence.
    destruct (Feed_do_work_data_rejected fuel message self Hne) as [Hdecode Hkey].
    destruct (DATASOURCE_UNFRAME message) as [ev|] eqn:Hu; [|by rewrite Hdecode].
    destruct (data_buffer self !! source_id ev) as [q|] eqn:Hq;
      [|by rewrite (Hkey ev eq_refl Hq)].
    clear Hdecode Hkey.
    assert (source_id ev ≠ s) as Hev.
    { apply Hother. rewrite received_cons. apply elem_of_app. left.
      unfold received. simpl. rewrite bool_decide_eq_false_2 by done.
      rewrite Hu. by apply list_elem_of_singleton. }
    rewrite (Feed_do_work_queues fuel self message ev q Hne Hu Hq).
    set (self1 := set_received_count _ _).
    assert (data_buffer self1 !! s = Some []) as Hs1.
    { subst self1. simpl. by rewrite lookup_insert_ne. }
    assert (is_full self1 || draining self1 = false) as Hgate.
    { change (draining self1) with (draining self). rewrite Hdr, orb_false_r.
      destruct (is_full self1) eqn:Hfull; [|done].
      rewrite is_full_true in Hfull. by apply Hfull in Hs1. }
    destruct (Feed_send_next_cases DATASOURCE_UNFRAME FEED_FRAME self1)
      as [[Hrun _]|[Hgate' _]]; [|congruence].
    rewrite Hrun.
    apply (IH self1); try done.
    + intros ev' Hin. apply Hother. rewrite received_cons. apply elem_of_app. by right.
    + subst self1. simpl.
      rewrite <- (size_dom (D := gset string)), dom_insert_lookup_L, size_dom
        by (by rewrite Hq). done.
  - rewrite count_done_cons_other in Hcnt by done.
    unfold Feed_do_work, do_work, ret at 1. apply IH; try done.
Qed.

(** X12: the Feed waits for its slowest source: as long as one of its
    sources has delivered no event and fewer DONE have arrived than there
    are sources, nothing is published, whatever the other sources send. *)
Theorem Feed_waits_for_slowest_source (sources : list string)
    (polls : list (option string)) (fuel : nat) (s : string) :
  s ∈ sources →
  (∀ ev, ev ∈ received DONE DATASOURCE_UNFRAME polls → source_id ev ≠ s) →
  (count_done DONE polls < size (data_buffer (Feed_init sources)))%nat →
  out (Feed_run DATASOURCE_UNFRAME FEED_FRAME DONE fuel polls (Feed_init sources)).2
  = []
  ∧ sent_count (Feed_run DATASOURCE_UNFRAME FEED_FRAME DONE fuel polls
                         (Feed_init sources)).2 = 0%nat
  ∧ done (Feed_run DATASOURCE_UNFRAME FEED_FRAME DONE fuel polls
                   (Feed_init sources)).2 = false.
Proof.
  intros Hin Hother Hcnt.
  destruct (Feed_init_from sources ParallelBuffer_init)
    as (Is & Ir & Idr & Ic & Id & Io & Idom & Iempty).
  fold (Feed_init sources) in Is, Ir, Idr, Ic, Id, Io, Idom, Iempty.
  simpl in Is, Ir, Idr, Ic, Id, Io, Idom.
  assert (data_buffer (Feed_init sources) !! s = Some []) as Hs.
  { assert (s ∈ dom (data_buffer (Feed_init sources))) as Hdom.
    { rewrite Idom. set_solver. }
    apply elem_of_dom in Hdom as [q Hq]. rewrite Hq. f_equal.
    eapply Iempty; [|done]. intros k q'. simpl. by rewrite lookup_empty. }
  destruct (Feed_run_waits fuel polls (Feed_init sources) s Hs Idr Id Hother)
    as (Ho & Hsc & Hd & _); [rewrite Ic; lia|].
  by rewrite Ho, Hsc, Io, Is.
Qed.

(** X18: [send_next] publishes exactly when its gate is open and some queue
    holds an event: it then pops and sends one head whose [dt] is not later
    than the head of any queue, and counts it; otherwise it leaves the Feed
    as it is. *)
Theorem Feed_send_next_publishes_earliest self :
  (is_full self || draining self = true ∧ (0 < pending_messages self)%nat →
   ∃ k e rest,
     data_buffer self !! k = Some (e :: rest)
     ∧ (∀ k' e' rest', data_buffer self !! k' = Some (e' :: rest') → dt e ≤ dt e')
     ∧ Feed_send_next DATASOURCE_UNFRAME FEED_FRAME self
       = (Val tt, mkPB (S (sent_count self)) (received_count self) (draining self)
                       (<[k := rest]> (data_buffer self))
                       (ds_finished_counter self) (done self)
                       (out self ++ [Send e])))
  ∧ (is_full self || draining self = false ∨ pending_messages self = 0%nat →
     Feed_send_next DATASOURCE_UNFRAME FEED_FRAME self = (Val tt, self)).
Proof.
  destruct (Feed_send_next_cases DATASOURCE_UNFRAME FEED_FRAME self)
    as [[Hrun Hwhy]|[Hgate (k & e & rest & Hk & Hmin & Hrun)]].
  - split; [|done]. intros [Hgate Hpos]. exfalso.
    destruct Hwhy as [Hclosed|Hempty]; [congruence|].
    apply pending_messages_zero in Hempty. lia.
  - split; [intros _; by exists k, e, rest|].
    intros [Hclosed|Hzero]; [congruence|]. exfalso.
    rewrite pending_messages_zero in Hzero. by apply Hzero in Hk.
Qed.

End FeedAccounts.

(** ** The Merge combines the heads of its queues *)

Section MergeFacts.
Context {T Rm : Type}.
Variable first_key : T → string.
Variable get_PASSTHROUGH : T → Rm.
Variable merge : Rm → T → Rm.
Variable TRANSFORM_UNFRAME : string → option T.
Variable MERGE_FRAME : Rm → string.
Implicit Type self : ParallelBuffer T Rm.
Implicit Type m : gmap string (list T).

Lemma foldl_merge_step_record (l : list (string * list T)) (r : Rm) m :
  (foldl (merge_step merge) (r, m) l).1
  = foldl merge r
      (omap (λ kv : string * list T,
               if bool_decide (kv.1 = "PASSTHROUGH") then None else head kv.2) l).
Proof.
  revert r m. induction l as [|[k q] l IH]; intros r m; [done|].
  simpl. unfold merge_step at 2. simpl.
  case_bool_decide; [apply IH|].
  destruct q as [|cur rest]; simpl; apply IH.
Qed.

Lemma foldl_merge_step_queues (l : list (string * list T)) (r : Rm) m k :
  NoDup l.*1 →
  (foldl (merge_step merge) (r, m) l).2 !! k
  = match (list_to_map l : gmap string (list T)) !! k with
    | Some (cur :: rest) => if decide (k = "PASSTHROUGH") then m !! k else Some rest
    | _ => m !! k
    end.
Proof.
  revert r m. induction l as [|[k1 q1] l IH]; intros r m Hnodup.
  { simpl. by rewrite lookup_empty. }
  apply NoDup_cons in Hnodup as [Hfresh Hnodup].
  cbn [foldl]. destruct (merge_step merge (r, m) (k1, q1)) as [r' m'] eqn:Hstep.
  rewrite IH by done. rewrite list_to_map_cons.
  unfold merge_step in Hstep. simpl in Hstep.
  destruct (decide (k = k1)) as [->|Hne].
  - rewrite lookup_insert_eq.
    rewrite (not_elem_of_list_to_map_1 (M := gmap string) l k1 Hfresh).
    case_bool_decide as HP.
    + injection Hstep as <- <-. destruct q1; [done|]. by rewrite decide_True.
    + destruct q1 as [|cur rest]; injection Hstep as <- <-; [done|].
      rewrite decide_False by done. by rewrite lookup_insert_eq.
  - rewrite (lookup_insert_ne _ k1 k) by done.
    assert (m' !! k = m !! k) as ->; [|done].
    case_bool_decide; [by injection Hstep as <- <-|].
    destruct q1; injection Hstep as <- <-; [done|].
    by rewrite lookup_insert_ne.
Qed.

(** [next] of the Merge, with the gate open and the Passthrough queue not
    empty. *)
Lemma MergedParallelBuffer_next_heads self head rest :
  is_full self || draining self = true →
  data_buffer self !! "PASSTHROUGH" = Some (head :: rest) →
  MergedParallelBuffer_next get_PASSTHROUGH merge self
  = (Val (Some (foldl merge (get_PASSTHROUGH head)
                      (merge_inputs (<["PASSTHROUGH" := rest]> (data_buffer self))))),
     set_data_buffer (tail <$> data_buffer self) self).
Proof.
  intros Hgate HP. unfold MergedParallelBuffer_next, bind, get.
  rewrite Hgate. simpl. rewrite HP. unfold modify, ret. simpl.
  rewrite foldl_merge_step_record. unfold merge_inputs. f_equal.
  unfold set_data_buffer. simpl. f_equal. apply map_eq. intros k.
  rewrite foldl_merge_step_queues by apply NoDup_fst_map_to_list.
  rewrite list_to_map_to_list, lookup_fmap.
  destruct (decide (k = "PASSTHROUGH")) as [->|Hne].
  - rewrite lookup_insert_eq, HP. simpl. by destruct rest.
  - rewrite lookup_insert_ne by done.
    destruct (data_buffer self !! k) as [[|cur q]|]; done.
Qed.

(** X13: with its gate open, [next] of the Merge pops the Passthrough
    queue first: without that queue it raises [KeyError], on an empty one
    [IndexError], both before any change; otherwise it takes the head off
    every queue that has one, nothing more, and returns the Passthrough's
    record with the other heads merged into it in the order of the
    dictionary. *)
Theorem Merge_next_pops_every_head self :
  is_full self || draining self = true →
  match data_buffer self !! "PASSTHROUGH" with
  | None =>
      MergedParallelBuffer_next get_PASSTHROUGH merge self
      = (Exc (KeyError "PASSTHROUGH"), self)
  | Some [] =>
      MergedParallelBuffer_next get_PASSTHROUGH merge self = (Exc IndexError, self)
  | Some (head :: rest) =>
      MergedParallelBuffer_next get_PASSTHROUGH merge self
      = (Val (Some (foldl merge (get_PASSTHROUGH head)
                          (merge_inputs (<["PASSTHROUGH" := rest]> (data_buffer self))))),
         set_data_buffer (tail <$> data_buffer self) self)
  end.
Proof.
  intros Hgate.
  destruct (data_buffer self !! "PASSTHROUGH") as [[|head rest]|] eqn:HP.
  - unfold MergedParallelBuffer_next, bind, get. rewrite Hgate. simpl.
    by rewrite HP.
  - by apply MergedParallelBuffer_next_heads.
  - unfold MergedParallelBuffer_next, bind, get. rewrite Hgate. simpl.
    by rewrite HP.
Qed.

Lemma sum_lengths_tail (l : list (string * list T)) :
  Forall (λ kv, kv.2 ≠ []) l →
  (sum_list ((λ kv, length kv.2) <$> (prod_map id tail <$> l)) + length l)%nat
  = sum_list ((λ kv, length kv.2) <$> l).
Proof.
  induction 1 as [|[k q] l Hq _ IH]; csimpl; [done|].
  destruct q as [|cur q]; [done|]. simpl in *. lia.
Qed.

(** [send_next] of a Merge whose gate is open and whose Passthrough queue
    is not empty: the state it leaves. *)
Lemma Merge_send_next_state self head rest :
  is_full self || draining self = true →
  data_buffer self !! "PASSTHROUGH" = Some (head :: rest) →
  Merge_send_next first_key get_PASSTHROUGH merge TRANSFORM_UNFRAME MERGE_FRAME self
  = (Val tt,
     mkPB (S (sent_count self)) (received_count self) (draining self)
          (tail <$> data_buffer self) (ds_finished_counter self) (done self)
          (out self
           ++ [Send (foldl merge (get_PASSTHROUGH head)
                       (merge_inputs (<["PASSTHROUGH" := rest]> (data_buffer self))))])).
Proof.
  intros Hgate HP.
  unfold Merge_send_next, send_next, bind, get. rewrite Hgate. simpl.
  by rewrite (MergedParallelBuffer_next_heads self head rest Hgate HP).
Qed.

(** X14: a full Merge that has a queue for the Passthrough emits exactly
    one record per call of [send_next] and takes exactly one result from
    every queue: [pending_messages()] drops by the number of queues. *)
Theorem Merge_send_next_when_full self :
  is_full self = true →
  is_Some (data_buffer self !! "PASSTHROUGH") →
  ∃ record self',
    Merge_send_next first_key get_PASSTHROUGH merge TRANSFORM_UNFRAME MERGE_FRAME
                    self = (Val tt, self')
    ∧ out self' = out self ++ [Send record]
    ∧ sent_count self' = S (sent_count self)
    ∧ data_buffer self' = tail <$> data_buffer self
    ∧ received_count self' = received_count self
    ∧ draining self' = draining self
    ∧ (pending_messages self' + size (data_buffer self))%nat = pending_messages self.
Proof.
  intros Hfull [q HP].
  assert (∀ k q, data_buffer self !! k = Some q → q ≠ []) as Hne
    by (by apply is_full_true).
  destruct q as [|head rest]; [by apply Hne in HP|].
  eexists _, _. split.
  { apply (Merge_send_next_state self head rest); [by rewrite Hfull | done]. }
  simpl. split_and!; try done.
  rewrite !pending_messages_sum. simpl.
  rewrite map_to_list_fmap, <- length_map_to_list.
  apply sum_lengths_tail. apply Forall_forall. intros [k q'] Hin.
  apply elem_of_map_to_list in Hin. by apply Hne in Hin.
Qed.

Lemma is_full_false self :
  is_full self = false ↔ ∃ k, data_buffer self !! k = Some [].
Proof.
  split.
  - unfold is_full. intros Hnot.
    assert (∃ kv, kv ∈ map_to_list (data_buffer self) ∧ kv.2 = []) as ([k q] & Hin & Hq).
    { induction (map_to_list (data_buffer self)) as [|[k q] l IH]; [done|].
      simpl in Hnot. destruct q as [|cur q]; simpl in Hnot.
      - exists (k, []). split; [by apply elem_of_cons; left | done].
      - destruct (IH Hnot) as (kv & Hin & Hq). exists kv.
        split; [by apply elem_of_cons; right | done]. }
    exists k. apply elem_of_map_to_list in Hin. simpl in Hq. by subst q.
  - intros [k Hk]. destruct (is_full self) eqn:Hfull; [|done].
    rewrite is_full_true in Hfull. by apply Hfull in Hk.
Qed.

(** X15: between two calls of [do_work], a Merge that is not draining is
    never full: a result that fills the last empty queue is merged and sent
    in the same call, which takes one result from every queue and so leaves
    the queue of that result empty again. *)
Theorem Merge_never_left_full (DONE : string) fuel message ev self :
  draining self = false →
  is_full self = false →
  message ≠ DONE →
  TRANSFORM_UNFRAME message = Some ev →
  is_Some (data_buffer self !! first_key ev) →
  is_Some (data_buffer self !! "PASSTHROUGH") →
  ∃ self',
    Merge_do_work first_key get_PASSTHROUGH merge TRANSFORM_UNFRAME MERGE_FRAME
                  DONE fuel (Some message) self = (Val tt, self')
    ∧ is_full self' = false
    ∧ draining self' = false
    ∧ received_count self' = S (received_count self)
    ∧ (out self' = out self ∨ ∃ record, out self' = out self ++ [Send record]).
Proof.
  intros Hdr Hnot Hne Hu [q Hq] HP.
  apply is_full_false in Hnot as [k0 Hk0].
  unfold Merge_do_work, do_work. rewrite bool_decide_eq_false_2 by done.
  unfold bind at 1. simpl. unfold MergedParallelBuffer_unframe. rewrite Hu.
  unfold ret at 1. unfold bind at 1.
  unfold MergedParallelBuffer_append, bind at 1, get at 1. simpl. rewrite Hq.
  unfold bind at 1, modify at 1. unfold modify at 1.
  set (self1 := set_received_count _ _).
  assert (is_Some (data_buffer self1 !! "PASSTHROUGH")) as HP1.
  { subst self1. simpl. rewrite lookup_insert. case_decide; eauto. }
  destruct (is_full self1) eqn:Hfull.
  - destruct HP1 as [qP HqP].
    assert (∃ head rest, qP = head :: rest) as (head & rest & ->).
    { destruct qP as [|head rest]; [|by eauto].
      rewrite is_full_true in Hfull. by apply Hfull in HqP. }
    pose proof (Merge_send_next_state self1 head rest) as Hrun.
    rewrite Hfull in Hrun. specialize (Hrun eq_refl HqP).
    unfold Merge_send_next in Hrun. rewrite Hrun.
    match type of Hrun with _ = (_, ?s) => set (self2 := s) in * end.
    assert (data_buffer self2 = tail <$> data_buffer self1) as Hbuf by done.
    exists self2. split_and!; [done| |done|done|].
    + apply is_full_false.
      assert (k0 = first_key ev) as ->.
      { destruct (decide (k0 = first_key ev)) as [|Hk]; [done|].
        rewrite is_full_true in Hfull.
        assert (data_buffer self1 !! k0 = Some []) as Hk1
          by (subst self1; simpl; by rewrite lookup_insert_ne).
        by apply Hfull in Hk1. }
      exists (first_key ev). rewrite Hbuf, lookup_fmap. subst self1. simpl.
      rewrite lookup_insert_eq. rewrite Hq in Hk0. by injection Hk0 as ->.
    + right. by eexists.
  - exists self1. split_and!; [|done|done|done|by left].
    unfold send_next, bind, get. simpl.
    change (draining self1) with (draining self). by rewrite Hfull, Hdr.
Qed.

End MergeFacts.

(** ** Transforms *)

Section TransformFacts.
Variable DONE : string.
Variable FEED_UNFRAME : string → option event.
Variable TRANSFORM_FRAME : string → string → string.
Context {U : Type}.
Variable transform : event → U → res (string * string) * U.

Lemma Passthrough_run_done polls self :
  transform_done self = true →
  Passthrough_run DONE TRANSFORM_FRAME polls self = (Val tt, self).
Proof.
  intros Hd. destruct polls as [|p polls]; [done|].
  simpl. unfold bind, get. by rewrite Hd.
Qed.

Lemma Passthrough_run_cons p polls self :
  transform_done self = false →
  Passthrough_run DONE TRANSFORM_FRAME (p :: polls) self
  = match PassthroughTransform_do_work DONE TRANSFORM_FRAME p self with
    | (Val _, self') => Passthrough_run DONE TRANSFORM_FRAME polls self'
    | (Exc e, self') => (Exc e, self')
    | (OutOfFuel, self') => (OutOfFuel, self')
    end.
Proof.
  intros Hd. cbn [Passthrough_run]. unfold bind at 1, get at 1.
  rewrite Hd. reflexivity.
Qed.

(** X16: the Passthrough forwards every feed message as it came, in order,
    one frame each, until the sentinel, on which it is done; but a single
    poll that times out before the sentinel ends its loop with
    [UnboundLocalError], after the frames of the messages before it. *)
Theorem Passthrough_run_forwards msgs rest self :
  transform_done self = false →
  Forall (λ message, message ≠ DONE) msgs →
  Passthrough_run DONE TRANSFORM_FRAME ((Some <$> msgs) ++ Some DONE :: rest) self
  = (Val tt, mkTransform true
               (result_socket self ++ (TRANSFORM_FRAME "PASSTHROUGH" <$> msgs)))
  ∧ Passthrough_run DONE TRANSFORM_FRAME ((Some <$> msgs) ++ None :: rest) self
    = (Exc (UnboundLocalError "message"),
       mkTransform false
         (result_socket self ++ (TRANSFORM_FRAME "PASSTHROUGH" <$> msgs))).
Proof.
  intros Hd Hmsgs. revert self Hd.
  induction Hmsgs as [|message msgs Hne _ IH]; intros self Hd.
  - change ((Some <$> []) ++ Some DONE :: rest) with (Some DONE :: rest).
    change ((Some <$> []) ++ None :: rest) with (@None string :: rest).
    rewrite !Passthrough_run_cons by done.
    assert (PassthroughTransform_do_work DONE TRANSFORM_FRAME (Some DONE) self
            = (Val tt, mkTransform true (result_socket self))) as ->.
    { unfold PassthroughTransform_do_work. by rewrite bool_decide_eq_true_2. }
    assert (PassthroughTransform_do_work DONE TRANSFORM_FRAME None self
            = (Exc (UnboundLocalError "message"), self)) as -> by done.
    rewrite Passthrough_run_done by done. simpl. rewrite app_nil_r.
    split; [done|]. destruct self as [d sock]. simpl in Hd. by subst d.
  - destruct (IH (mkTransform (transform_done self)
                    (result_socket self ++ [TRANSFORM_FRAME "PASSTHROUGH" message])))
      as [IH1 IH2]; [done|].
    simpl in IH1, IH2. rewrite <- !app_assoc in IH1, IH2. simpl in IH1, IH2.
    assert (PassthroughTransform_do_work DONE TRANSFORM_FRAME (Some message) self
            = (Val tt, mkTransform (transform_done self)
                         (result_socket self
                          ++ [TRANSFORM_FRAME "PASSTHROUGH" message]))) as Hstep.
    { unfold PassthroughTransform_do_work. by rewrite bool_decide_eq_false_2. }
    rewrite fmap_cons, <- !app_comm_cons, !Passthrough_run_cons, Hstep by done.
    split; [exact IH1 | exact IH2].
Qed.

Lemma BaseTransform_run_done polls (self : Transform * U) :
  transform_done self.1 = true →
  BaseTransform_run DONE FEED_UNFRAME TRANSFORM_FRAME transform polls self
  = (Val tt, self).
Proof.
  intros Hd. destruct polls as [|p polls]; [done|].
  simpl. unfold bind, get. by rewrite Hd.
Qed.

Lemma BaseTransform_run_cons p polls (self : Transform * U) :
  transform_done self.1 = false →
  BaseTransform_run DONE FEED_UNFRAME TRANSFORM_FRAME transform (p :: polls) self
  = match BaseTransform_do_work DONE FEED_UNFRAME TRANSFORM_FRAME transform p self with
    | (Val _, self') =>
        BaseTransform_run DONE FEED_UNFRAME TRANSFORM_FRAME transform polls self'
    | (Exc e, self') => (Exc e, self')
    | (OutOfFuel, self') => (OutOfFuel, self')
    end.
Proof.
  intros Hd. cbn [BaseTransform_run]. unfold bind at 1, get at 1.
  rewrite Hd. reflexivity.
Qed.

(** X17: a transform whose [transform] does not raise sends exactly one
    result per feed message, in order, each framed from the name and the
    value that [transform] returned in the state the earlier events left; a
    poll that times out sends nothing and the loop goes on; on the sentinel
    the transform is done. *)
Theorem BaseTransform_run_one_result_per_event polls rest (t : Transform) (u : U) :
  (∀ ev u0, ∃ result u1, transform ev u0 = (Val result, u1)) →
  transform_done t = false →
  (Some DONE ∉ polls) →
  (∀ message, Some message ∈ polls → is_Some (FEED_UNFRAME message)) →
  ∃ u',
    BaseTransform_run DONE FEED_UNFRAME TRANSFORM_FRAME transform
                      (polls ++ Some DONE :: rest) (t, u)
    = (Val tt,
       (mkTransform true
          (result_socket t
           ++ ((λ result, TRANSFORM_FRAME result.1 result.2)
               <$> transform_outputs transform (received DONE FEED_UNFRAME polls) u)),
        u')).
Proof.
  intros Hpure. revert t u.
  induction polls as [|p polls IH]; intros t u Hd Hnodone Hdec.
  - exists u. change ([] ++ Some DONE :: rest) with (Some DONE :: rest).
    rewrite BaseTransform_run_cons by done.
    assert (BaseTransform_do_work DONE FEED_UNFRAME TRANSFORM_FRAME transform
              (Some DONE) (t, u) = (Val tt, (mkTransform true (result_socket t), u)))
      as ->.
    { unfold BaseTransform_do_work. by rewrite bool_decide_eq_true_2. }
    rewrite BaseTransform_run_done by done. simpl. by rewrite app_nil_r.
  - apply not_elem_of_cons in Hnodone as [Hp Hnodone].
    assert (∀ message, Some message ∈ polls → is_Some (FEED_UNFRAME message))
      as Hdec' by (intros m Hin; apply Hdec; by apply elem_of_cons; right).
    rewrite <- app_comm_cons, BaseTransform_run_cons by done.
    destruct p as [message|].
    + assert (message ≠ DONE) as Hne by congruence.
      destruct (Hdec message) as [ev Hev]; [by apply elem_of_cons; left|].
      destruct (Hpure ev u) as (result & u1 & Htr).
      assert (BaseTransform_do_work DONE FEED_UNFRAME TRANSFORM_FRAME transform
                (Some message) (t, u)
              = (Val tt, (mkTransform (transform_done t)
                            (result_socket t ++ [TRANSFORM_FRAME result.1 result.2]),
                          u1))) as ->.
      { unfold BaseTransform_do_work. rewrite bool_decide_eq_false_2 by done.
        rewrite Hev. unfold bind, call_transform. simpl. by rewrite Htr. }
      destruct (IH (mkTransform (transform_done t)
                      (result_socket t ++ [TRANSFORM_FRAME result.1 result.2])) u1)
        as (u' & Hrun); [done | done | done |].
      exists u'. rewrite Hrun. simpl.
      unfold received. simpl. rewrite bool_decide_eq_false_2 by done.
      rewrite Hev. simpl. rewrite Htr. simpl. by rewrite <- app_assoc.
    + assert (BaseTransform_do_work DONE FEED_UNFRAME TRANSFORM_FRAME transform
                None (t, u) = (Val tt, (t, u))) as -> by done.
      destruct (IH t u) as (u' & Hrun); [done | done | done |].
      exists u'. by rewrite Hrun.
Qed.

End TransformFacts.

(** * The further properties at concrete inputs *)

Lemma sample_host_keysets :
  dom (components sample_host) = dom (sync_register sample_host).
Proof. vm_compute. reflexivity. Defined.

Lemma register_components_keeps_keysets_witness :
  dom (components sample_host) = dom (sync_register sample_host)
  ∧ dom (components (register_components [(sample_source, 7)] sample_host))
    = dom (sync_register (register_components [(sample_source, 7)] sample_host)).
Proof.
  split; [exact sample_host_keysets|].
  exact (proj1 (register_components_keeps_keysets [(sample_source, 7)] sample_host
                  sample_host_keysets)).
Defined.

Lemma sample_host_tracked :
  dom (components sample_host) ⊆ dom (sync_register sample_host).
Proof. rewrite sample_host_keysets. done. Defined.

Lemma loop_keeps_components_tracked_witness :
  dom (components sample_host) ⊆ dom (sync_register sample_host)
  ∧ dom (components
           (loop "DONE" [mkTick 1 (Some "ghost:HEARTBEAT") 1;
                         mkTick 2 (Some "ghost:DONE") 2] sample_host).2)
    ⊆ dom (sync_register
             (loop "DONE" [mkTick 1 (Some "ghost:HEARTBEAT") 1;
                           mkTick 2 (Some "ghost:DONE") 2] sample_host).2).
Proof.
  split; [exact sample_host_tracked|].
  exact (proj1 (proj2 (loop_keeps_components_tracked "DONE"
                         [mkTick 1 (Some "ghost:HEARTBEAT") 1;
                          mkTick 2 (Some "ghost:DONE") 2] sample_host
                         sample_host_tracked))).
Defined.

Lemma loop_replies_only_to_requests_witness :
  is_Some (reply_state (sync_socket sample_host))
  ∧ is_Some (reply_state
               (sync_socket
                  (loop "DONE" [mkTick 1 (Some "garbage") 1;
                                mkTick 2 (Some "FEED:HEARTBEAT") 2] sample_host).2)).
Proof.
  assert (is_Some (reply_state (sync_socket sample_host))) as Hlog
    by (by exists false).
  split; [exact Hlog|].
  exact (loop_replies_only_to_requests "DONE"
           [mkTick 1 (Some "garbage") 1; mkTick 2 (Some "FEED:HEARTBEAT") 2]
           sample_host Hlog).
Defined.

Lemma well_formed_frame_is_acknowledged_witness :
  colon_free "FEED" ∧ colon_free "HEARTBEAT"
  ∧ ∃ self',
      loop_body "DONE" (Some (sync_frame "FEED" "HEARTBEAT")) 9 sample_host
      = (Val tt, self')
      ∧ sync_socket self'
        = sync_socket sample_host
          ++ [Recv (sync_frame "FEED" "HEARTBEAT"); Reply "ack"].
Proof.
  assert (colon_free "FEED") as Hid by reflexivity.
  assert (colon_free "HEARTBEAT") as Hst by reflexivity.
  split_and!; [exact Hid | exact Hst |].
  destruct (well_formed_frame_is_acknowledged "DONE" "FEED" "HEARTBEAT" 9
              sample_host Hid Hst) as (self' & Hrun & Hlog & _).
  { intros Heq. discriminate Heq. }
  exists self'. by split.
Defined.

Lemma register_then_DONE_restores_registry_witness :
  colon_free "SRC" ∧ colon_free "DONE"
  ∧ components sample_host !! "SRC" = None
  ∧ sync_register sample_host !! "SRC" = None
  ∧ ∃ self',
      loop_body "DONE" (Some (sync_frame "SRC" "DONE")) 9
                (register_component sample_host (sample_source, 7)) = (Val tt, self')
      ∧ components self' = components sample_host
      ∧ sync_register self' = sync_register sample_host.
Proof.
  assert (colon_free "SRC") as Hid by reflexivity.
  assert (colon_free "DONE") as Hdone by reflexivity.
  assert (components sample_host !! "SRC" = None) as Hc by (vm_compute; reflexivity).
  assert (sync_register sample_host !! "SRC" = None) as Hs by (vm_compute; reflexivity).
  split_and!; [exact Hid | exact Hdone | exact Hc | exact Hs |].
  destruct (register_then_DONE_restores_registry "DONE" sample_source 7 9 sample_host
              Hid Hdone Hc Hs) as (self' & Hrun & Hc' & Hs' & _).
  exists self'. by split_and!.
Defined.

Lemma sample_host_registered_at_0 id last :
  sync_register sample_host !! id = Some last → last = 0.
Proof.
  unfold sample_host, ComponentHost_init, register_components. simpl.
  rewrite !lookup_insert.
  repeat case_decide; first [by intros [= <-] | by rewrite lookup_empty].
Defined.

Lemma loop_ends_when_all_are_DONE_witness :
  NoDup ["FEED"; "MERGE"; "PASSTHROUGH"]
  ∧ dom (components sample_host) = list_to_set ["FEED"; "MERGE"; "PASSTHROUGH"]
  ∧ ∃ self',
      loop "DONE" (sample_done_ticks ++ [mkTick 4 None 4]) sample_host
      = (Val tt, self')
      ∧ components self' = ∅
      ∧ sync_socket self'
        = [Recv "FEED:DONE"; Reply "ack"; Recv "MERGE:DONE"; Reply "ack";
           Recv "PASSTHROUGH:DONE"; Reply "ack"].
Proof.
  assert (NoDup ["FEED"; "MERGE"; "PASSTHROUGH"]) as Hnodup.
  { repeat (apply NoDup_cons; split;
            [intros Hin;
             repeat (apply elem_of_cons in Hin as [Heq|Hin]; [discriminate|]);
             by apply elem_of_nil in Hin|]).
    apply NoDup_nil_2. }
  assert (dom (components sample_host) = list_to_set ["FEED"; "MERGE"; "PASSTHROUGH"])
    as Hdom by (vm_compute; reflexivity).
  split_and!; [exact Hnodup | exact Hdom |].
  destruct (loop_ends_when_all_are_DONE "DONE" sample_done_ticks
              ["FEED"; "MERGE"; "PASSTHROUGH"] (mkTick 4 None 4) [] sample_host)
    as (self' & Hrun & Hc & _ & Hlog).
  - repeat constructor.
  - exact Hnodup.
  - repeat constructor.
  - reflexivity.
  - exact Hdom.
  - exact sample_host_tracked.
  - intros t id last Hin Hlook. apply sample_host_registered_at_0 in Hlook as ->.
    unfold sample_done_ticks in Hin.
    repeat (apply elem_of_cons in Hin as [->|Hin]; [simpl; lia|]).
    by apply elem_of_nil in Hin.
  - exists self'. split_and!; [exact Hrun | exact Hc | exact Hlog].
Defined.

Lemma Feed_rejected_message_changes_nothing_witness :
  "A." ≠ "DONE"
  ∧ ".." ≠ "DONE"
  ∧ (∃ self',
       Feed_do_work sample_unframe sample_frame "DONE" 5 (Some "A.")
                    (Feed_init ["A"; "B"]) = (Val tt, self')
       ∧ received_count self' = 1%nat)
  ∧ Feed_do_work sample_unframe sample_frame "DONE" 5 (Some "..")
                 (Feed_init ["A"; "B"])
    = (Exc (KeyError "."), Feed_init ["A"; "B"]).
Proof.
  assert ("A." ≠ "DONE") as H1 by discriminate.
  assert (".." ≠ "DONE") as H2 by discriminate.
  split_and!; [exact H1 | exact H2 | |].
  - destruct (Feed_rejected_message_changes_nothing sample_unframe sample_frame
                "DONE" 5 "A." (Feed_init ["A"; "B"]) H1)
      as (self' & Hrun & Hrc & _).
    exists self'. by split.
  - exact (Feed_rejected_message_changes_nothing sample_unframe sample_frame
             "DONE" 5 ".." (Feed_init ["A"; "B"]) H2).
Defined.

Lemma Feed_waits_for_slowest_source_witness :
  "B" ∈ ["A"; "B"]
  ∧ (count_done "DONE" [Some "A."; Some "A.."; None]
     < size (data_buffer (Feed_init ["A"; "B"])))%nat
  ∧ out (Feed_run sample_unframe sample_frame "DONE" 5
                  [Some "A."; Some "A.."; None] (Feed_init ["A"; "B"])).2 = [].
Proof.
  assert ("B" ∈ ["A"; "B"]) as Hin by (repeat constructor).
  assert (count_done "DONE" [Some "A."; Some "A.."; None]
          < size (data_buffer (Feed_init ["A"; "B"])))%nat as Hcnt
    by (vm_compute; lia).
  split_and!; [exact Hin | exact Hcnt |].
  refine (proj1 (Feed_waits_for_slowest_source sample_unframe sample_frame "DONE"
                   ["A"; "B"] [Some "A."; Some "A.."; None] 5 "B" Hin _ Hcnt)).
  intros ev Hev. vm_compute in Hev.
  repeat (apply elem_of_cons in Hev as [->|Hev]; [discriminate|]).
  by apply elem_of_nil in Hev.
Defined.

Lemma Merge_next_pops_every_head_witness :
  is_full sample_full_Merge || draining sample_full_Merge = true
  ∧ data_buffer sample_full_Merge !! "PASSTHROUGH" = Some [("PASSTHROUGH", "A.")]
  ∧ MergedParallelBuffer_next (λ ev, [ev]) sample_merge sample_full_Merge
    = (Val (Some [("PASSTHROUGH", "A."); ("X", "1")]),
       set_data_buffer (tail <$> data_buffer sample_full_Merge) sample_full_Merge).
Proof.
  assert (is_full sample_full_Merge || draining sample_full_Merge = true) as Hgate
    by (vm_compute; reflexivity).
  assert (data_buffer sample_full_Merge !! "PASSTHROUGH"
          = Some [("PASSTHROUGH", "A.")]) as HP by (vm_compute; reflexivity).
  split_and!; [exact Hgate | exact HP |].
  pose proof (Merge_next_pops_every_head (λ ev, [ev]) sample_merge
                sample_full_Merge Hgate) as Hnext.
  rewrite HP in Hnext. rewrite Hnext. f_equal.
Defined.

Lemma Merge_send_next_when_full_witness :
  is_full sample_full_Merge = true
  ∧ is_Some (data_buffer sample_full_Merge !! "PASSTHROUGH")
  ∧ ∃ record self',
      Merge_send_next fst (λ ev, [ev]) sample_merge sample_transform_unframe
                      sample_merge_frame sample_full_Merge = (Val tt, self')
      ∧ out self' = out sample_full_Merge ++ [Send record]
      ∧ (pending_messages self' + size (data_buffer sample_full_Merge))%nat
        = pending_messages sample_full_Merge.
Proof.
  assert (is_full sample_full_Merge = true) as Hfull by (vm_compute; reflexivity).
  assert (is_Some (data_buffer sample_full_Merge !! "PASSTHROUGH")) as HP
    by (by exists [("PASSTHROUGH", "A.")]).
  split_and!; [exact Hfull | exact HP |].
  destruct (Merge_send_next_when_full fst (λ ev, [ev]) sample_merge
              sample_transform_unframe sample_merge_frame sample_full_Merge
              Hfull HP) as (record & self' & Hrun & Ho & _ & _ & _ & _ & Hp).
  exists record, self'. by split_and!.
Defined.

Lemma Merge_never_left_full_witness :
  is_full sample_Merge = false
  ∧ "X:1" ≠ "DONE"
  ∧ ∃ self',
      Merge_do_work fst (λ ev, [ev]) sample_merge sample_transform_unframe
                    sample_merge_frame "DONE" 5 (Some "X:1") sample_Merge
      = (Val tt, self')
      ∧ is_full self' = false.
Proof.
  assert (is_full sample_Merge = false) as Hnot by (vm_compute; reflexivity).
  assert ("X:1" ≠ "DONE") as Hne by discriminate.
  split_and!; [exact Hnot | exact Hne |].
  destruct (Merge_never_left_full fst (λ ev, [ev]) sample_merge
              sample_transform_unframe sample_merge_frame "DONE" 5 "X:1" ("X", "1")
              sample_Merge) as (self' & Hrun & Hfull & _).
  - reflexivity.
  - exact Hnot.
  - exact Hne.
  - reflexivity.
  - by exists [].
  - by exists [].
  - exists self'. by split.
Defined.

Lemma Passthrough_run_forwards_witness :
  Forall (λ message, message ≠ "DONE") ["A."; "B.."]
  ∧ Passthrough_run "DONE" String.append [Some "A."; Some "B.."; Some "DONE"; Some "A..."]
                    (mkTransform false [])
    = (Val tt, mkTransform true ["PASSTHROUGHA."; "PASSTHROUGHB.."])
  ∧ Passthrough_run "DONE" String.append [Some "A."; Some "B.."; None; Some "A..."]
                    (mkTransform false [])
    = (Exc (UnboundLocalError "message"),
       mkTransform false ["PASSTHROUGHA."; "PASSTHROUGHB.."]).
Proof.
  assert (Forall (λ message, message ≠ "DONE") ["A."; "B.."]) as Hmsgs
    by (repeat constructor; discriminate).
  split; [exact Hmsgs|].
  exact (Passthrough_run_forwards "DONE" String.append ["A."; "B.."] [Some "A..."]
           (mkTransform false []) eq_refl Hmsgs).
Defined.

Lemma BaseTransform_run_one_result_per_event_witness :
  (Some "DONE" ∉ [Some "A."; None; Some "B.."])
  ∧ ∃ u',
      BaseTransform_run "DONE" sample_unframe String.append sample_transform
                        [Some "A."; None; Some "B.."; Some "DONE"]
                        (mkTransform false [], tt)
      = (Val tt, (mkTransform true ["DOUBLE.."; "DOUBLE...."], u')).
Proof.
  assert (Some "DONE" ∉ [Some "A."; None; Some "B.."]) as Hnodone.
  { intros Hin.
    repeat (apply elem_of_cons in Hin as [Heq|Hin]; [discriminate|]).
    by apply elem_of_nil in Hin. }
  split; [exact Hnodone|].
  destruct (BaseTransform_run_one_result_per_event "DONE" sample_unframe
              String.append sample_transform [Some "A."; None; Some "B.."] []
              (mkTransform false []) tt) as (u' & Hrun).
  - intros ev u0. by exists ("DOUBLE", String.append (payload ev) (payload ev)), u0.
  - reflexivity.
  - exact Hnodone.
  - intros message Hin.
    repeat (apply elem_of_cons in Hin as [Heq|Hin];
            [first [discriminate Heq | injection Heq as ->; by eexists]|]).
    by apply elem_of_nil in Hin.
  - exists u'. exact Hrun.
Defined.

Lemma heartbeat_keeps_host_running_witness :
  colon_free "FEED" ∧ colon_free "HEARTBEAT" ∧ "HEARTBEAT" ≠ "DONE"
  ∧ components sample_host ≠ ∅
  ∧ is_timed_out 5000000
      (loop_body "DONE" (Some (sync_frame "FEED" "HEARTBEAT")) 4000000 sample_host).2
    = false.
Proof.
  assert (colon_free "FEED") as Hid by reflexivity.
  assert (colon_free "HEARTBEAT") as Hst by reflexivity.
  assert ("HEARTBEAT" ≠ "DONE") as Hne by discriminate.
  assert (components sample_host ≠ ∅) as Hcomp.
  { intros Heq.
    assert (components sample_host !! "FEED" = None) as Hnone
      by (rewrite Heq; apply lookup_empty).
    vm_compute in Hnone. discriminate Hnone. }
  split_and!; [exact Hid | exact Hst | exact Hne | exact Hcomp |].
  apply (heartbeat_keeps_host_running "DONE" "FEED" "HEARTBEAT" 4000000 5000000
           sample_host Hid Hst Hne Hcomp).
  - intros id' last _ Hlook. apply sample_host_registered_at_0 in Hlook as ->.
    change (timeout sample_host) with 5000000. lia.
  - change (timeout sample_host) with 5000000. lia.
Defined.
